(** * gendoc.py: the Sphinx documentation generator of the Linphone core API

    A shallow embedding of [coreapi/help/doc/sphinx/gendoc.py] and the
    properties of its page builders and of [DocGenerator.generate].

    Python [str] values are byte strings, modelled by [string]; Python
    exceptions are values of [exn] carried by the [result] type; the file
    system that [generate] writes to is an explicit state. *)

From Stdlib Require Import String Ascii List ZArith Lia Bool.
From stdpp Require Import gmap strings list.

(** ** Python strings *)

Module Py.

(** [c.lower()] on one byte: only [A]..[Z] change. *)
Definition lower_ascii (c : ascii) : ascii :=
  let n := nat_of_ascii c in
  if (65 <=? n)%nat && (n <=? 90)%nat then ascii_of_nat (n + 32) else c.

(** [s.lower()] *)
Fixpoint lower (s : string) : string :=
  match s with
  | EmptyString => EmptyString
  | String c s' => String (lower_ascii c) (lower s')
  end.

(** [s * n] *)
Fixpoint repeat_str (s : string) (n : nat) : string :=
  match n with
  | O => ""
  | S n' => s +:+ repeat_str s n'
  end.

(** [sep.join(lines)] *)
Fixpoint join (sep : string) (lines : list string) : string :=
  match lines with
  | [] => ""
  | [l] => l
  | l :: ls => l +:+ sep +:+ join sep ls
  end.

(** [s.startswith('/')] and [s.endswith('/')] *)
Definition starts_with_slash (s : string) : bool :=
  match s with
  | String c _ => Ascii.eqb c "/"
  | EmptyString => false
  end.

Fixpoint ends_with_slash (s : string) : bool :=
  match s with
  | EmptyString => false
  | String c EmptyString => Ascii.eqb c "/"
  | String _ s' => ends_with_slash s'
  end.

(** [os.path.join(a, b)] of [posixpath], for two arguments. *)
Definition os_path_join (a b : string) : string :=
  if starts_with_slash b then b
  else if String.eqb a "" || ends_with_slash a then a +:+ b
  else a +:+ "/" +:+ b.

(** [p[:p.rfind('/') + 1]]: the part of a path up to and including its last
    slash, empty when it has none. *)
Fixpoint head_of (p : string) : string :=
  match p with
  | EmptyString => EmptyString
  | String c s =>
      match head_of s with
      | EmptyString => if Ascii.eqb c "/" then String c EmptyString else EmptyString
      | h => String c h
      end
  end.

(** [s.rstrip('/')] *)
Fixpoint rstrip_slashes (s : string) : string :=
  match s with
  | EmptyString => EmptyString
  | String c s' =>
      match rstrip_slashes s' with
      | EmptyString => if Ascii.eqb c "/" then EmptyString else String c EmptyString
      | r => String c r
      end
  end.

(** [os.path.dirname(p)] of [posixpath]: the head, without its trailing
    slashes unless it consists of slashes only. *)
Definition os_path_dirname (p : string) : string :=
  let head := head_of p in
  match rstrip_slashes head with
  | EmptyString => head
  | stripped => stripped
  end.

(** The values a property getter of this file can return. *)
Inductive value : Type :=
  | VBool (b : bool)
  | VInt (n : Z).

(** Python truthiness, as a template engine tests a flag. *)
Definition truthy (v : value) : bool :=
  match v with
  | VBool b => b
  | VInt n => negb (n =? 0)%Z
  end.

(** [isinstance(v, bool)] *)
Definition is_bool (v : value) : bool :=
  match v with
  | VBool _ => true
  | VInt _ => false
  end.

(** [a == b]: [bool] is a subclass of [int], [True] is 1 and [False] is 0. *)
Definition as_int (v : value) : Z :=
  match v with
  | VBool true => 1
  | VBool false => 0
  | VInt n => n
  end.

Definition py_eqb (a b : value) : bool := (as_int a =? as_int b)%Z.

(** The exceptions this program can raise. *)
Inductive exn : Type :=
  | ValueError (arg : string)
  | AttributeError (what : string)
  | NameError (name : string)
  | OSError (path : string)
  | IOError (path : string).

Inductive result (A : Type) : Type :=
  | Ok (a : A)
  | Raise (e : exn).
Arguments Ok {A} a.
Arguments Raise {A} e.

#[global] Instance result_ret : MRet result := fun A a => Ok a.

#[global] Instance result_bind : MBind result := fun A B k r =>
  match r with
  | Ok a => k a
  | Raise e => Raise e
  end.

(** [for x in items: acc.append(body(x))], where [body] may raise. *)
Fixpoint append_each {A B} (body : A -> result B) (items : list A)
    (acc : list B) : result (list B) :=
  match items with
  | [] => Ok acc
  | x :: rest => y ← body x; append_each body rest (acc ++ [y])
  end.

End Py.
Import Py.

(** ** The imported modules

    [metaname], [metadoc] and [abstractapi] live in the [tools] directory and
    [pystache] is a third-party package.  [gendoc.py] only calls into them, so
    each is an interface: the types it provides and the operations that
    [gendoc.py] invokes on them. *)

(** Modelled from the spec: the module [metaname] is not part of this file.
    A name is an abstract identifier that is not tied to any target-language
    spelling, and translating it is a pure function of the identifier and of
    the rules of the target language, with no error condition. *)
Class metaname : Type := {
  (** [metaname.Name] *)
  Name : Type;
  (** [name.to_snake_case(fullName=b)] *)
  to_snake_case : Name -> bool -> string;
  NameTranslator : Type;
  (** [metaname.CTranslator()] and [metaname.CppTranslator()] *)
  CTranslator : NameTranslator;
  CppTranslator : NameTranslator;
  (** [name.translate(translator, recursive=b)] *)
  Name_translate : Name -> NameTranslator -> bool -> string
}.

Class metadoc `{metaname} : Type := {
  (** [metadoc.Description] *)
  Description : Type;
  DocTranslator : Type;
  (** [metadoc.SphinxTranslator(nameTranslator)] *)
  SphinxTranslator : NameTranslator -> DocTranslator;
  (** [description.translate(docTranslator)] *)
  Description_translate : Description -> DocTranslator -> string;
  (** [docTranslator.get_declarator(text)] *)
  get_declarator : DocTranslator -> string -> string
}.

Class abstractapi `{metadoc} : Type := {
  LangTranslator : Type;
  (** [abstractapi.CLangTranslator()] and [abstractapi.CppLangTranslator()] *)
  CLangTranslator : LangTranslator;
  CppLangTranslator : LangTranslator;
  (** [abstractapi.Method]: [briefDescription], [translate_as_prototype] *)
  Method : Type;
  Method_briefDescription : Method -> option Description;
  translate_as_prototype : Method -> LangTranslator -> string;
  (** [abstractapi.Enumerator]: [name], [briefDescription], [translate_value] *)
  Enumerator : Type;
  Enumerator_name : Enumerator -> Name;
  Enumerator_briefDescription : Enumerator -> option Description;
  translate_value : Enumerator -> LangTranslator -> string
}.

(** ** The abstract API tree, as far as [gendoc.py] reads it *)

Inductive EntityKind : Type :=
  | KClass | KEnum | KEnumerator | KMethod | KNamespace.

Definition EntityKind_eqb (a b : EntityKind) : bool :=
  match a, b with
  | KClass, KClass | KEnum, KEnum | KEnumerator, KEnumerator
  | KMethod, KMethod | KNamespace, KNamespace => true
  | _, _ => false
  end.

Section AbstractTree.
Context `{abstractapi}.

(** An entity met when walking up the [parent] links. *)
Record Entity : Type := {
  Entity_kind : EntityKind;
  Entity_name : Name
}.

Record Enum : Type := {
  Enum_name : Name;
  Enum_briefDescription : option Description;
  Enum_enumerators : list Enumerator
}.

(** [Class_parents] is the chain of [parent] links, nearest first. *)
Record Class_ : Type := {
  Class_name : Name;
  Class_briefDescription : option Description;
  Class_instanceMethods : list Method;
  Class_classMethods : list Method;
  Class_parents : list Entity
}.

(** Modelled from the spec: [abstractapi.Object.find_first_ancestor_by_type]
    is not part of this file.  Every entity is a node of a tree with a
    reference to its parent; the call returns the nearest ancestor of the
    requested type, or [None] when the walk reaches the root without one. *)
Definition find_first_ancestor_by_type (c : Class_) (k : EntityKind)
  : option Entity :=
  List.find (fun a => EntityKind_eqb (Entity_kind a) k) (Class_parents c).

(** [absApiParser]: the two indices are dictionaries, kept as association
    lists in the order in which the dictionary iterates. *)
Record CParser : Type := {
  enumsIndex : list (string * Enum);
  classesIndex : list (string * Class_)
}.

(** [d.values()] *)
Definition values {A} (d : list (string * A)) : list A := List.map snd d.

End AbstractTree.

(** ** RstTools *)

Definition newline : string := String (ascii_of_nat 10) "".

Module RstTools.

(** [RstTools.make_section(text, char='=', overline=False)] *)
Definition make_section (text : string) (char : string) (overline : bool)
  : string :=
  let size := String.length text in
  let underline := repeat_str char size in
  let lines := [text; underline] in
  let lines := if overline then underline :: lines else lines in
  join newline lines.

(** [RstTools.make_chapter(text)] *)
Definition make_chapter (text : string) : string :=
  make_section text "*" true.

End RstTools.

(** ** Pages *)

Section Pages.
Context `{abstractapi}.

(** The attributes set by [SphinxPage.__init__]. *)
Record SphinxPage : Type := {
  language : string;
  nameTranslator : NameTranslator;
  langTranslator : LangTranslator;
  docTranslator : DocTranslator;
  filename : string
}.

(** [SphinxPage._init_translation_info]: the translators chosen for a
    language, before [docTranslator] is derived from [nameTranslator]. *)
Definition _init_translation_info (language : string)
  : result (NameTranslator * LangTranslator * DocTranslator) :=
  '(nameTranslator, langTranslator) ←
    (if String.eqb (lower language) "c" then
       Ok (CTranslator, CLangTranslator)
     else if String.eqb (lower language) "c++" then
       Ok (CppTranslator, CppLangTranslator)
     else Raise (ValueError language));
  Ok (nameTranslator, langTranslator, SphinxTranslator nameTranslator).

(** The languages for which [_init_translation_info] has translators. *)
Definition supported (language : string) : Prop :=
  lower language = "c" \/ lower language = "c++".

(** [SphinxPage.__init__(self, language, filename)] *)
Definition SphinxPage_init (language filename : string) : result SphinxPage :=
  '(nt, lt, dt) ← _init_translation_info language;
  Ok {| language := language; nameTranslator := nt; langTranslator := lt;
        docTranslator := dt; filename := filename |}.

(** [SphinxPage._classname_to_filename(classname)] *)
Definition _classname_to_filename (classname : Name) : string :=
  to_snake_case classname true +:+ ".rst".

(** *** IndexPage *)

Record TocEntry : Type := { entryName : string }.

Record IndexPage : Type := {
  IndexPage_base : SphinxPage;
  tocEntries : list TocEntry
}.

Definition IndexPage_init (language : string) : result IndexPage :=
  base ← SphinxPage_init language "index.rst";
  Ok {| IndexPage_base := base; tocEntries := [] |}.

(** [IndexPage.add_class_entry]: appends to [self.tocEntries]. *)
Definition add_class_entry (self : IndexPage) (_class : Class_) : IndexPage :=
  {| IndexPage_base := IndexPage_base self;
     tocEntries := tocEntries self ++
       [{| entryName := _classname_to_filename (Class_name _class) |}] |}.

(** [d.translate(docTranslator)]: a brief description is optional in the
    abstract tree, and the call is made without testing for [None]. *)
Definition translate_brief (d : option Description) (dt : DocTranslator)
  : result string :=
  match d with
  | Some d => Ok (Description_translate d dt)
  | None => Raise (AttributeError "translate")
  end.

(** *** EnumsPage *)

Record TranslatedEnumerator : Type := {
  tv_name : string;
  tv_briefDesc : string;
  tv_value : string
}.

Record TranslatedEnum : Type := {
  te_name : string;
  te_fullName : string;
  te_briefDesc : string;
  te_enumerators : list TranslatedEnumerator;
  te_sectionName : string
}.

(** One turn of the loop of [_translate_enum_values]. *)
Definition translate_enumerator (self : SphinxPage) (enumerator : Enumerator)
  : result TranslatedEnumerator :=
  let name := Name_translate (Enumerator_name enumerator)
                (nameTranslator self) false in
  briefDesc ← translate_brief (Enumerator_briefDescription enumerator)
                (docTranslator self);
  let value := translate_value enumerator (langTranslator self) in
  Ok {| tv_name := name; tv_briefDesc := briefDesc; tv_value := value |}.

Definition _translate_enum_values (self : SphinxPage) (enum : Enum)
  : result (list TranslatedEnumerator) :=
  let translatedEnumerators := [] in
  append_each (translate_enumerator self) (Enum_enumerators enum)
    translatedEnumerators.

(** One turn of the loop of [_translate_enums]. *)
Definition translate_enum (self : SphinxPage) (enum : Enum)
  : result TranslatedEnum :=
  let name := Name_translate (Enum_name enum) (nameTranslator self) false in
  let fullName := Name_translate (Enum_name enum) (nameTranslator self) true in
  briefDesc ← translate_brief (Enum_briefDescription enum) (docTranslator self);
  enumerators ← _translate_enum_values self enum;
  Ok {| te_name := name; te_fullName := fullName; te_briefDesc := briefDesc;
        te_enumerators := enumerators;
        te_sectionName := RstTools.make_section name "=" false |}.

Definition _translate_enums (self : SphinxPage) (enums : list Enum)
  : result (list TranslatedEnum) :=
  append_each (translate_enum self) enums [].

Record EnumsPage : Type := {
  EnumsPage_base : SphinxPage;
  enums : list TranslatedEnum
}.

Definition EnumsPage_init (language : string) (enums : list Enum)
  : result EnumsPage :=
  base ← SphinxPage_init language "enums.rst";
  translated ← _translate_enums base enums;
  Ok {| EnumsPage_base := base; enums := translated |}.

(** *** ClassPage *)

Record MethAttr : Type := {
  prototype : string;
  brief : string
}.

(** One turn of the loop of [_translate_methods]. *)
Definition translate_method (self : SphinxPage) (method : Method)
  : result MethAttr :=
  let prototype := translate_as_prototype method (langTranslator self) in
  brief ← translate_brief (Method_briefDescription method) (docTranslator self);
  Ok {| prototype := prototype; brief := brief |}.

Definition _translate_methods (self : SphinxPage) (methods : list Method)
  : result (list MethAttr) :=
  let translatedMethods := [] in
  append_each (translate_method self) methods translatedMethods.

(** [ClassPage._get_translated_namespace]: [namespace.name] is read without
    testing [namespace] against [None]. *)
Definition _get_translated_namespace (self : SphinxPage) (_class : Class_)
  : result string :=
  let namespace := find_first_ancestor_by_type _class KNamespace in
  match namespace with
  | Some namespace =>
      Ok (Name_translate (Entity_name namespace) (nameTranslator self) true)
  | None => Raise (AttributeError "name")
  end.

Record ClassPage : Type := {
  ClassPage_base : SphinxPage;
  namespace : string;
  className : string;
  fullClassName : string;
  classBrief : string;
  methods : list MethAttr;
  classMethods : list MethAttr
}.

Definition ClassPage_init (_class : Class_) (language : string)
  : result ClassPage :=
  let filename := _classname_to_filename (Class_name _class) in
  base ← SphinxPage_init language filename;
  namespace ← _get_translated_namespace base _class;
  let className := Name_translate (Class_name _class) (nameTranslator base) false in
  let fullClassName :=
    Name_translate (Class_name _class) (nameTranslator base) true in
  classBrief ← translate_brief (Class_briefDescription _class)
                 (docTranslator base);
  methods ← _translate_methods base (Class_instanceMethods _class);
  classMethods ← _translate_methods base (Class_classMethods _class);
  Ok {| ClassPage_base := base; namespace := namespace;
        className := className; fullClassName := fullClassName;
        classBrief := classBrief; methods := methods;
        classMethods := classMethods |}.

(** [len(self.methods) > 0] *)
Definition _has_methods (self : ClassPage) : value :=
  VBool (0 <? Z.of_nat (length (methods self)))%Z.

(** [len(self.classMethods)] *)
Definition _has_class_methods (self : ClassPage) : value :=
  VInt (Z.of_nat (length (classMethods self))).

Definition hasMethods := _has_methods.
Definition hasClassMethods := _has_class_methods.

End Pages.

(** ** The file system and the state of a run *)

Inductive node : Type :=
  | Dir
  | File (content : string).

Inductive event : Type :=
  | EvMkdir (path : string)
  | EvWrite (path content : string).

(** The paths that exist, the effects performed so far, oldest first, and
    the effects that the operating system refuses for a reason of its own
    (permissions, quota, a read-only volume); what it refuses does not change
    while the program runs.  Paths are told apart by their spelling: two
    spellings of one file are two paths. *)
Record World : Type := {
  nodes : gmap string node;
  journal : list event;
  denied : event -> bool
}.

(** Whether [d] names a directory: the empty path stands for the current
    directory and a path of slashes for the root, and both exist. *)
Definition is_directory (m : gmap string node) (d : string) : bool :=
  match rstrip_slashes d with
  | EmptyString => true
  | _ => match m !! d with
         | Some Dir => true
         | _ => false
         end
  end.

(** An entry can be made at [path] when what comes before its last
    component is a directory and the operating system lets the effect
    happen. *)
Definition allowed (w : World) (path : string) (ev : event) : bool :=
  is_directory (nodes w) (os_path_dirname path) && negb (denied w ev).

(** The world after an effect that left [m] in the file system. *)
Definition after_effect (w : World) (m : gmap string node) (ev : event)
  : World :=
  {| nodes := m; journal := journal w ++ [ev]; denied := denied w |}.

Definition IO (A : Type) : Type := World -> result A * World.

#[global] Instance IO_ret : MRet IO := fun A a w => (Ok a, w).

#[global] Instance IO_bind : MBind IO := fun A B k m w =>
  match m w with
  | (Ok a, w') => k a w'
  | (Raise e, w') => (Raise e, w')
  end.

(** A computation without effects, run inside [IO]. *)
Definition lift {A} (r : result A) : IO A := fun w => (r, w).

(** [os.path.exists(path)] *)
Definition os_path_exists (path : string) : IO bool := fun w =>
  (Ok (bool_decide (is_Some (nodes w !! path))), w).

(** [os.mkdir(path)]: raises [OSError] when the path exists, when its parent
    is missing or is not a directory, and when the system refuses. *)
Definition os_mkdir (path : string) : IO unit := fun w =>
  match nodes w !! path with
  | Some _ => (Raise (OSError path), w)
  | None =>
      if allowed w path (EvMkdir path)
      then (Ok tt, after_effect w (<[path := Dir]> (nodes w)) (EvMkdir path))
      else (Raise (OSError path), w)
  end.

(** [with open(path, mode='w') as f: f.write(content)]: raises [IOError]
    when the path is a directory, when its parent is missing or is not a
    directory, and when the system refuses; otherwise the file is created or
    replaced. *)
Definition write_file (path content : string) : IO unit := fun w =>
  match nodes w !! path with
  | Some Dir => (Raise (IOError path), w)
  | _ =>
      if allowed w path (EvWrite path content)
      then (Ok tt, after_effect w (<[path := File content]> (nodes w))
                     (EvWrite path content))
      else (Raise (IOError path), w)
  end.

(** A [for] loop whose body has effects. *)
Fixpoint for_each {A} (l : list A) (body : A -> IO unit) : IO unit :=
  match l with
  | [] => mret tt
  | x :: rest => _ ← body x; for_each rest body
  end.

(** ** Rendering and the generator *)

Section Generator.
Context `{abstractapi}.

Inductive Page : Type :=
  | PIndex (page : IndexPage)
  | PEnums (page : EnumsPage)
  | PClass (page : ClassPage).

Definition Page_base (page : Page) : SphinxPage :=
  match page with
  | PIndex p => IndexPage_base p
  | PEnums p => EnumsPage_base p
  | PClass p => ClassPage_base p
  end.

(** [pystache.Renderer().render(page)]: the text that the template of the
    page's class yields for the page; [pystache.render(text, page)]: the
    text that the template [text] yields for it. *)
Class pystache : Type := {
  render : Page -> string;
  render_text : string -> Page -> string
}.
Context `{pystache}.

(** The three lambdas that a page offers to its template:
    [make_chapter], [make_section] and [write_declarator]. *)
Definition make_chapter (self : Page) : string -> string :=
  fun text => RstTools.make_chapter (render_text text self).

Definition make_section (self : Page) : string -> string :=
  fun text => RstTools.make_section (render_text text self) "=" false.

Definition write_declarator (self : Page) : string -> string :=
  fun text => get_declarator (docTranslator (Page_base self)) text.

(** [SphinxPage.write(self, directory)] *)
Definition write (self : Page) (directory : string) : IO unit :=
  let filepath := os_path_join directory (filename (Page_base self)) in
  write_file filepath (render self).

(** The effect that a successful [write] leaves in the journal. *)
Definition written (directory : string) (page : Page) : event :=
  EvWrite (os_path_join directory (filename (Page_base page))) (render page).

(** The names that [generate] reads from the module namespace; they are
    bound only when the file runs as a script. *)
Record Args : Type := {
  xmldir : string;
  outputdir : string
}.

Record Globals : Type := {
  args : option Args;
  absApiParser : option CParser
}.

Definition global {A} (name : string) (binding : option A) : IO A :=
  lift (match binding with
        | Some v => Ok v
        | None => Raise (NameError name)
        end).

Record DocGenerator : Type := {
  api : CParser;
  languages : list string
}.

Definition DocGenerator_init (api : CParser) : DocGenerator :=
  {| api := api; languages := ["C"; "C++"] |}.

(** [DocGenerator._get_subdirectory] *)
Definition _get_subdirectory (self : DocGenerator) (lang : string)
  : result string :=
  let loweredLang := lower lang in
  if String.eqb loweredLang "c" then Ok "c"
  else if String.eqb loweredLang "c++" then Ok "cpp"
  else Raise (ValueError ("'" +:+ lang +:+ "' language not supported")).

(** The loop over the classes in [generate]; [indexPage] is the object that
    [add_class_entry] updates. *)
Fixpoint generate_classes (lang directory : string) (classes : list Class_)
    (indexPage : IndexPage) : IO IndexPage :=
  match classes with
  | [] => mret indexPage
  | _class :: rest =>
      page ← lift (ClassPage_init _class lang);
      _ ← write (PClass page) directory;
      generate_classes lang directory rest (add_class_entry indexPage _class)
  end.

(** The body of the loop over the languages in [generate]. *)
Definition generate_language (self : DocGenerator) (G : Globals)
    (lang : string) : IO unit :=
  subdirectory ← lift (_get_subdirectory self lang);
  a ← global "args" (args G);
  let directory := os_path_join (outputdir a) subdirectory in
  present ← os_path_exists directory;
  _ ← (if negb present then os_mkdir directory else mret tt);
  parser ← global "absApiParser" (absApiParser G);
  enumsPage ← lift (EnumsPage_init lang (values (enumsIndex parser)));
  _ ← write (PEnums enumsPage) directory;
  indexPage ← lift (IndexPage_init lang);
  parser ← global "absApiParser" (absApiParser G);
  indexPage ← generate_classes lang directory (values (classesIndex parser))
                indexPage;
  write (PIndex indexPage) directory.

(** [DocGenerator.generate(self, outputdir)], run with the module namespace
    [G]. *)
Definition generate (self : DocGenerator) (outputdir : string) (G : Globals)
  : IO unit :=
  for_each (languages self) (generate_language self G).

(** *** The effects of a run, listed ahead of time

    Building a page never looks at the file system, so what [generate] does
    to it can be computed beforehand: a list of actions, followed by the
    exception that stops the run, if a page cannot be built. *)

Inductive action : Type :=
  | Ensure (directory : string)
  | Put (path content : string).

Definition perform (a : action) : IO unit :=
  match a with
  | Ensure directory =>
      present ← os_path_exists directory;
      if negb present then os_mkdir directory else mret tt
  | Put path content => write_file path content
  end.

Definition exec (acts : list action) : IO unit := for_each acts perform.

Definition run {A} (p : list action * result A) : IO A :=
  _ ← exec p.1; lift p.2.

(** The effect of an action that changes the file system. *)
Definition effect (a : action) : event :=
  match a with
  | Ensure directory => EvMkdir directory
  | Put path content => EvWrite path content
  end.


Definition put_page (directory : string) (page : Page) : action :=
  Put (os_path_join directory (filename (Page_base page))) (render page).

Fixpoint plan_classes (lang directory : string) (classes : list Class_)
    (indexPage : IndexPage) : list action * result IndexPage :=
  match classes with
  | [] => ([], Ok indexPage)
  | _class :: rest =>
      match ClassPage_init _class lang with
      | Raise e => ([], Raise e)
      | Ok page =>
          let p := plan_classes lang directory rest
                     (add_class_entry indexPage _class) in
          (put_page directory (PClass page) :: p.1, p.2)
      end
  end.

Definition plan_language (self : DocGenerator) (G : Globals) (lang : string)
  : list action * result unit :=
  match _get_subdirectory self lang with
  | Raise e => ([], Raise e)
  | Ok subdirectory =>
  match args G with
  | None => ([], Raise (NameError "args"))
  | Some a =>
  let directory := os_path_join (outputdir a) subdirectory in
  match absApiParser G with
  | None => ([Ensure directory], Raise (NameError "absApiParser"))
  | Some parser =>
  match EnumsPage_init lang (values (enumsIndex parser)) with
  | Raise e => ([Ensure directory], Raise e)
  | Ok enumsPage =>
  let head := [Ensure directory; put_page directory (PEnums enumsPage)] in
  match IndexPage_init lang with
  | Raise e => (head, Raise e)
  | Ok indexPage =>
  let p := plan_classes lang directory (values (classesIndex parser))
             indexPage in
  match p.2 with
  | Raise e => (head ++ p.1, Raise e)
  | Ok indexPage =>
      (head ++ p.1 ++ [put_page directory (PIndex indexPage)], Ok tt)
  end end end end end end.

Fixpoint plan_languages (self : DocGenerator) (G : Globals)
    (langs : list string) : list action * result unit :=
  match langs with
  | [] => ([], Ok tt)
  | lang :: rest =>
      let p := plan_language self G lang in
      match p.2 with
      | Raise e => (p.1, Raise e)
      | Ok _ => let q := plan_languages self G rest in (p.1 ++ q.1, q.2)
      end
  end.

Definition plan (self : DocGenerator) (G : Globals)
  : list action * result unit :=
  plan_languages self G (languages self).

End Generator.


(** The same for a list of actions. *)
Fixpoint last_put (acts : list action) (path : string) : option string :=
  match acts with
  | [] => None
  | Put p c :: rest =>
      match last_put rest path with
      | Some c' => Some c'
      | None => if String.eqb p path then Some c else None
      end
  | Ensure _ :: rest => last_put rest path
  end.

(** Whether a list of actions asks for the directory [k]. *)
Fixpoint ensures (acts : list action) (k : string) : bool :=
  match acts with
  | [] => false
  | Ensure d :: rest => String.eqb d k || ensures rest k
  | Put _ _ :: rest => ensures rest k
  end.

Definition is_write (e : event) : bool :=
  match e with
  | EvWrite _ _ => true
  | EvMkdir _ => false
  end.

(** The writes that a list of actions performs when none of them fails. *)
Fixpoint writes_of (acts : list action) : list event :=
  match acts with
  | [] => []
  | Put p c :: rest => EvWrite p c :: writes_of rest
  | Ensure _ :: rest => writes_of rest
  end.

(** ** A small API to run the definitions on

    One instance of the imported interfaces and one parsed project: the
    namespace [Foo] with the class [BarBaz] and the enum [Colour]. *)

Module Sample.

Inductive flavour : Type := InC | InCpp.

(** A name holds its namespace segments, outermost first, each one a list
    of words; its snake case is lowercased, underscored and, for the full
    name, goes through every segment. *)
Definition SName : Type := list (list string).

Definition snake (n : SName) (fullName : bool) : string :=
  let segments := if fullName then n else drop (length n - 1) n in
  join "_" (List.map lower (List.concat segments)).

Definition spell (n : SName) (t : flavour) (recursive : bool) : string :=
  match t with
  | InC => snake n recursive
  | InCpp =>
      let segments := if recursive then n else drop (length n - 1) n in
      join "::" (List.map (join "") segments)
  end.

#[export] Instance names : metaname := {|
  Name := SName;
  to_snake_case := snake;
  NameTranslator := flavour;
  CTranslator := InC;
  CppTranslator := InCpp;
  Name_translate := spell
|}.

#[export] Instance docs : metadoc := {|
  Description := string;
  DocTranslator := flavour;
  SphinxTranslator := fun t => t;
  Description_translate := fun d _ => d;
  get_declarator := fun _ text => text
|}.

Record SMethod : Type := {
  m_brief : option string;
  m_returns : string;
  m_name : SName
}.

Record SEnumerator : Type := {
  e_name : SName;
  e_brief : option string;
  e_value : string
}.

#[export] Instance tree : abstractapi := {|
  LangTranslator := flavour;
  CLangTranslator := InC;
  CppLangTranslator := InCpp;
  Method := SMethod;
  Method_briefDescription := m_brief;
  translate_as_prototype := fun m t =>
    m_returns m +:+ " " +:+ spell (m_name m) t true +:+ "();";
  Enumerator := SEnumerator;
  Enumerator_name := e_name;
  Enumerator_briefDescription := e_brief;
  translate_value := fun e _ => e_value e
|}.

#[export] Instance templates : pystache := {|
  render := fun page =>
    match page with
    | PIndex p => join newline (List.map entryName (tocEntries p))
    | PEnums p => join newline (List.map te_sectionName (enums p))
    | PClass p =>
        join newline (fullClassName p :: List.map prototype (methods p)
                        ++ List.map prototype (classMethods p))
    end;
  render_text := fun text _ => text
|}.

Definition Foo : Entity := {| Entity_kind := KNamespace; Entity_name := [["Foo"]] |}.

Definition doThing : SMethod :=
  {| m_brief := Some "Does the thing."; m_returns := "void";
     m_name := [["Foo"]; ["Bar"; "Baz"]; ["do"; "Thing"]] |}.

Definition create : SMethod :=
  {| m_brief := Some "Makes one."; m_returns := "BarBaz";
     m_name := [["Foo"]; ["Bar"; "Baz"]; ["create"]] |}.

Definition BarBaz : Class_ :=
  {| Class_name := [["Foo"]; ["Bar"; "Baz"]];
     Class_briefDescription := Some "A bar of baz.";
     Class_instanceMethods := [doThing];
     Class_classMethods := [];
     Class_parents := [Foo] |}.

(** A class that only has class methods. *)
Definition Factory : Class_ :=
  {| Class_name := [["Foo"]; ["Factory"]];
     Class_briefDescription := Some "Makes things.";
     Class_instanceMethods := [];
     Class_classMethods := [create; create];
     Class_parents := [Foo] |}.

(** A class that hangs directly under the root. *)
Definition Orphan : Class_ :=
  {| Class_name := [["Orphan"]];
     Class_briefDescription := Some "No namespace.";
     Class_instanceMethods := [];
     Class_classMethods := [];
     Class_parents := [] |}.

Definition enumerator (name value : string) : SEnumerator :=
  {| e_name := [["Foo"]; ["Colour"]; [name]]; e_brief := Some name;
     e_value := value |}.

Definition Colour : Enum :=
  {| Enum_name := [["Foo"]; ["Colour"]];
     Enum_briefDescription := Some "Three colours.";
     Enum_enumerators := [enumerator "C" "0"; enumerator "A" "1";
                          enumerator "B" "2"] |}.

Definition parsed : CParser :=
  {| enumsIndex := [("Foo::Colour", Colour)];
     classesIndex := [("Foo::BarBaz", BarBaz); ("Foo::Factory", Factory)] |}.

Definition other : CParser :=
  {| enumsIndex := []; classesIndex := [("Orphan", Orphan)] |}.

Definition script_globals : Globals :=
  {| args := Some {| xmldir := "xml"; outputdir := "out" |};
     absApiParser := Some parsed |}.

Definition empty_world : World :=
  {| nodes := ∅; journal := []; denied := fun _ => false |}.

(** A file system in which the output directory [out] exists and is empty. *)
Definition out_world : World :=
  {| nodes := {[ "out" := Dir ]}; journal := []; denied := fun _ => false |}.

(** The file system after the C turn, and after a whole run. *)
Definition world_after_C : World :=
  Eval vm_compute in
    (generate_language (DocGenerator_init other) script_globals "C"
       out_world).2.

Definition world_after_run : World :=
  Eval vm_compute in
    (generate (DocGenerator_init parsed) "first" script_globals out_world).2.

Definition page_C : SphinxPage :=
  {| language := "C"; nameTranslator := InC; langTranslator := InC;
     docTranslator := InC; filename := "enums.rst" |}.

End Sample.


(** ** Notions used to state what the builders and a run do *)

Section Notions.
Context `{pystache}.

(** The writes of the turn of [generate] for one language, read off the
    module globals: the Enums page of the enums of [absApiParser], the page
    of every class of [absApiParser] in the order of [classesIndex], and the
    Index page with the entries of these classes, each at its file name in
    the directory of the language under [args.outputdir]. *)
Definition turn_writes (self : DocGenerator) (G : Globals) (lang : string)
    (evs : list event) : Prop :=
  exists a parser sub enumsPage classPages indexPage,
    args G = Some a /\ absApiParser G = Some parser /\
    _get_subdirectory self lang = Ok sub /\
    EnumsPage_init lang (values (enumsIndex parser)) = Ok enumsPage /\
    Forall2 (fun c p => ClassPage_init c lang = Ok p)
      (values (classesIndex parser)) classPages /\
    IndexPage_init lang = Ok indexPage /\
    let directory := os_path_join (outputdir a) sub in
    evs = written directory (PEnums enumsPage) ::
          List.map (fun p => written directory (PClass p)) classPages ++
          [written directory
             (PIndex (foldl add_class_entry indexPage
                        (values (classesIndex parser))))].

(** An effect of a run: the creation of one of the two language directories
    under [args.outputdir], or a write, to the path that joins such a
    directory with [enums.rst], [index.rst] or the file name of a class of
    [absApiParser].  The path starts with the directory unless the name is
    an absolute path. *)
Definition output_event (G : Globals) (ev : event) : Prop :=
  exists a sub, args G = Some a /\ (sub = "c" \/ sub = "cpp") /\
    let directory := os_path_join (outputdir a) sub in
    match ev with
    | EvMkdir d => d = directory
    | EvWrite p _ =>
        exists parser name,
          absApiParser G = Some parser /\
          p = os_path_join directory name /\
          (name = "enums.rst" \/ name = "index.rst" \/
           exists c, In c (values (classesIndex parser)) /\
                     name = _classname_to_filename (Class_name c)) /\
          (starts_with_slash name = false -> String.prefix directory p = true)
    end.

(** An enum, or a class, all of whose descriptions are present. *)
Definition Enum_documented (enum : Enum) : Prop :=
  is_Some (Enum_briefDescription enum) /\
  forall e, In e (Enum_enumerators enum) ->
            is_Some (Enumerator_briefDescription e).

Definition Class_documented (c : Class_) : Prop :=
  is_Some (Class_briefDescription c) /\
  forall m, In m (Class_instanceMethods c ++ Class_classMethods c) ->
            is_Some (Method_briefDescription m).

(** The path that an action works on. *)
Definition action_path (a : action) : string :=
  match a with
  | Ensure directory => directory
  | Put path _ => path
  end.



End Notions.

(** More of the sample API. *)
Module Fixtures.
Import Sample.

(** An enumerator without a description, and an enum that holds it. *)
Definition Nameless : SEnumerator :=
  {| e_name := [["Foo"]; ["Shade"]; ["Grey"]]; e_brief := None; e_value := "7" |}.

Definition Shade : Enum :=
  {| Enum_name := [["Foo"]; ["Shade"]];
     Enum_briefDescription := Some "Shades.";
     Enum_enumerators := [enumerator "Dark" "0"; Nameless] |}.

(** A method without a description, and a class that holds it. *)
Definition undocumented : SMethod :=
  {| m_brief := None; m_returns := "int";
     m_name := [["Foo"]; ["Draft"]; ["peek"]] |}.

Definition Draft : Class_ :=
  {| Class_name := [["Foo"]; ["Draft"]];
     Class_briefDescription := Some "Work in progress.";
     Class_instanceMethods := [doThing; undocumented];
     Class_classMethods := [];
     Class_parents := [Foo] |}.



Definition no_parser : Globals :=
  {| args := Some {| xmldir := "xml"; outputdir := "out" |};
     absApiParser := None |}.

Definition page_Cpp : SphinxPage :=
  {| language := "C++"; nameTranslator := InCpp; langTranslator := InCpp;
     docTranslator := InCpp; filename := "index.rst" |}.

Definition empty_index : Page :=
  PIndex {| IndexPage_base := page_Cpp; tocEntries := [] |}.

(** A file system in which the place of the C index page is taken by a
    directory. *)
Definition blocked_world : World :=
  {| nodes := <[ "out/c/index.rst" := Dir ]>
                (<[ "out/c" := Dir ]> {[ "out" := Dir ]});
     journal := []; denied := fun _ => false |}.



Definition world_after_blocked : World :=
  Eval vm_compute in
    (generate (DocGenerator_init parsed) "out" script_globals blocked_world).2.

End Fixtures.
(** * Properties *)

(** ** Lower-casing and the two language names *)






Lemma supported_dec (s : string) : {supported s} + {~ supported s}.
Proof.
  unfold supported.
  destruct (String.eqb_spec (lower s) "c") as [E1 | N1]; [left; auto|].
  destruct (String.eqb_spec (lower s) "c++") as [E2 | N2]; [left; auto|].
  right. intros [E | E]; contradiction.
Qed.

(** ** The loop that appends *)

Section AppendEach.
Context {A B : Type} (body : A -> result B).

Lemma append_each_Ok (items : list A) (acc l : list B) :
  append_each body items acc = Ok l <->
  exists ys, Forall2 (fun x y => body x = Ok y) items ys /\ l = acc ++ ys.
Proof.
  revert acc. induction items as [|x rest IH]; intros acc; simpl.
  - split.
    + intros E. injection E as <-. exists []. split; [constructor|].
      by rewrite app_nil_r.
    + intros (ys & F & ->). inversion F. by rewrite app_nil_r.
  - unfold mbind, result_bind. destruct (body x) as [y|e] eqn:Ex.
    + rewrite IH. split.
      * intros (ys & F & ->). exists (y :: ys). split; [by constructor|].
        by rewrite <- app_assoc.
      * intros (ys & F & ->). inversion F as [|? y' ? ys' Ey F']; subst.
        assert (y' = y) as -> by congruence.
        exists ys'. split; [done|]. by rewrite <- app_assoc.
    + split; [discriminate|].
      intros (ys & F & _). inversion F; congruence.
Qed.

(** The loop stops at the first item on which the body raises, and with
    that exception. *)
Lemma append_each_Raise (items : list A) (acc : list B) (e : exn) :
  append_each body items acc = Raise e ->
  exists x, In x items /\ body x = Raise e.
Proof.
  revert acc. induction items as [|x rest IH]; intros acc; simpl.
  - discriminate.
  - unfold mbind, result_bind. destruct (body x) as [y|e'] eqn:Ex.
    + intros E. destruct (IH _ E) as (x' & I & E'). eauto.
    + intros E. injection E as ->. eauto.
Qed.

Lemma append_each_total (items : list A) (acc : list B) :
  (forall x, In x items -> exists y, body x = Ok y) ->
  exists l, append_each body items acc = Ok l.
Proof.
  intros Hall. destruct (append_each body items acc) as [l|e] eqn:E; [eauto|].
  apply append_each_Raise in E as (x & I & E).
  destruct (Hall x I) as (y & Ey). congruence.
Qed.

End AppendEach.

(** ** Page builders *)

Section PageFacts.
Context `{abstractapi}.

Lemma _init_translation_info_c (s : string) :
  lower s = "c" ->
  _init_translation_info s =
    Ok (CTranslator, CLangTranslator, SphinxTranslator CTranslator).
Proof. intros E. unfold _init_translation_info. rewrite E. reflexivity. Qed.

Lemma _init_translation_info_cpp (s : string) :
  lower s = "c++" ->
  _init_translation_info s =
    Ok (CppTranslator, CppLangTranslator, SphinxTranslator CppTranslator).
Proof. intros E. unfold _init_translation_info. rewrite E. reflexivity. Qed.

Lemma _init_translation_info_other (s : string) :
  ~ supported s -> _init_translation_info s = Raise (ValueError s).
Proof.
  intros N. unfold _init_translation_info.
  destruct (String.eqb_spec (lower s) "c") as [E|_];
    [exfalso; apply N; left; exact E|].
  destruct (String.eqb_spec (lower s) "c++") as [E|_];
    [exfalso; apply N; right; exact E|].
  reflexivity.
Qed.

Lemma SphinxPage_init_supported (s fn : string) :
  supported s ->
  exists nt lt, SphinxPage_init s fn =
    Ok {| language := s; nameTranslator := nt; langTranslator := lt;
          docTranslator := SphinxTranslator nt; filename := fn |}.
Proof.
  unfold SphinxPage_init. intros [E | E].
  - rewrite (_init_translation_info_c _ E). eauto.
  - rewrite (_init_translation_info_cpp _ E). eauto.
Qed.

Lemma SphinxPage_init_other (s fn : string) :
  ~ supported s -> SphinxPage_init s fn = Raise (ValueError s).
Proof.
  intros N. unfold SphinxPage_init.
  by rewrite (_init_translation_info_other _ N).
Qed.

Lemma SphinxPage_init_Ok (s fn : string) (p : SphinxPage) :
  SphinxPage_init s fn = Ok p ->
  supported s /\ language p = s /\ filename p = fn.
Proof.
  intros E. destruct (supported_dec s) as [S | N].
  - destruct (SphinxPage_init_supported s fn S) as (nt & lt & E').
    rewrite E' in E. injection E as <-. auto.
  - rewrite (SphinxPage_init_other _ _ N) in E. discriminate.
Qed.

(** What can go wrong while translating is a missing description. *)
Lemma translate_brief_Raise (d : option Description) (dt : DocTranslator)
    (e : exn) :
  translate_brief d dt = Raise e -> e = AttributeError "translate".
Proof. destruct d; simpl; [discriminate | congruence]. Qed.

Lemma translate_enumerator_Raise (self : SphinxPage) (x : Enumerator) (e : exn) :
  translate_enumerator self x = Raise e -> e = AttributeError "translate".
Proof.
  unfold translate_enumerator, mbind, result_bind.
  destruct (translate_brief _ _) eqn:E; [discriminate|].
  intros E'. injection E' as <-. eapply translate_brief_Raise, E.
Qed.

Lemma translate_method_Raise (self : SphinxPage) (m : Method) (e : exn) :
  translate_method self m = Raise e -> e = AttributeError "translate".
Proof.
  unfold translate_method, mbind, result_bind.
  destruct (translate_brief _ _) eqn:E; [discriminate|].
  intros E'. injection E' as <-. eapply translate_brief_Raise, E.
Qed.

Lemma _translate_methods_Raise (self : SphinxPage) (ms : list Method) (e : exn) :
  _translate_methods self ms = Raise e -> e = AttributeError "translate".
Proof.
  intros E. apply append_each_Raise in E as (m & _ & E).
  eapply translate_method_Raise, E.
Qed.

Lemma translate_enum_Raise (self : SphinxPage) (x : Enum) (e : exn) :
  translate_enum self x = Raise e -> e = AttributeError "translate".
Proof.
  unfold translate_enum, mbind, result_bind.
  destruct (translate_brief _ _) eqn:E.
  - destruct (_translate_enum_values self x) eqn:E'; [discriminate|].
    intros E''. injection E'' as <-.
    apply append_each_Raise in E' as (y & _ & E').
    eapply translate_enumerator_Raise, E'.
  - intros E'. injection E' as <-. eapply translate_brief_Raise, E.
Qed.

Lemma _translate_enums_Raise (self : SphinxPage) (l : list Enum) (e : exn) :
  _translate_enums self l = Raise e -> e = AttributeError "translate".
Proof.
  intros E. apply append_each_Raise in E as (m & _ & E).
  eapply translate_enum_Raise, E.
Qed.

Lemma _get_translated_namespace_Raise (self : SphinxPage) (c : Class_) (e : exn) :
  _get_translated_namespace self c = Raise e -> e = AttributeError "name".
Proof.
  unfold _get_translated_namespace.
  destruct (find_first_ancestor_by_type c KNamespace); [discriminate|congruence].
Qed.

Lemma IndexPage_init_other (s : string) :
  ~ supported s -> IndexPage_init s = Raise (ValueError s).
Proof.
  intros N. unfold IndexPage_init.
  by rewrite (SphinxPage_init_other _ _ N).
Qed.

Lemma EnumsPage_init_other (s : string) (l : list Enum) :
  ~ supported s -> EnumsPage_init s l = Raise (ValueError s).
Proof.
  intros N. unfold EnumsPage_init.
  by rewrite (SphinxPage_init_other _ _ N).
Qed.

Lemma ClassPage_init_other (c : Class_) (s : string) :
  ~ supported s -> ClassPage_init c s = Raise (ValueError s).
Proof.
  intros N. unfold ClassPage_init.
  by rewrite (SphinxPage_init_other _ _ N).
Qed.


Lemma ClassPage_init_Raise (c : Class_) (s : string) (e : exn) :
  supported s -> ClassPage_init c s = Raise e ->
  e = AttributeError "name" \/ e = AttributeError "translate".
Proof.
  intros S. unfold ClassPage_init.
  destruct (SphinxPage_init_supported s (_classname_to_filename (Class_name c)) S)
    as (nt & lt & ->).
  unfold mbind, result_bind.
  destruct (_get_translated_namespace _ c) eqn:E1;
    [|apply _get_translated_namespace_Raise in E1; intros [= <-]; auto].
  destruct (translate_brief _ _) eqn:E2;
    [|apply translate_brief_Raise in E2; intros [= <-]; auto].
  destruct (_translate_methods _ (Class_instanceMethods c)) eqn:E3;
    [|apply _translate_methods_Raise in E3; intros [= <-]; auto].
  destruct (_translate_methods _ (Class_classMethods c)) eqn:E4;
    [|apply _translate_methods_Raise in E4; intros [= <-]; auto].
  discriminate.
Qed.

Lemma ClassPage_init_Ok (c : Class_) (s : string) (page : ClassPage) :
  ClassPage_init c s = Ok page ->
  exists base ns,
    SphinxPage_init s (_classname_to_filename (Class_name c)) = Ok base /\
    ClassPage_base page = base /\
    find_first_ancestor_by_type c KNamespace = Some ns /\
    namespace page = Name_translate (Entity_name ns) (nameTranslator base) true /\
    _translate_methods base (Class_instanceMethods c) = Ok (methods page) /\
    _translate_methods base (Class_classMethods c) = Ok (classMethods page).
Proof.
  unfold ClassPage_init, mbind, result_bind.
  destruct (SphinxPage_init _ _) as [base|] eqn:E0; [|discriminate].
  unfold _get_translated_namespace.
  destruct (find_first_ancestor_by_type c KNamespace) as [ns|]; [|discriminate].
  destruct (translate_brief _ _); [|discriminate].
  destruct (_translate_methods _ (Class_instanceMethods c)) eqn:E1;
    [|discriminate].
  destruct (_translate_methods _ (Class_classMethods c)) eqn:E2;
    [|discriminate].
  intros [= <-]. exists base, ns. simpl. repeat split; assumption || reflexivity.
Qed.

Lemma IndexPage_init_Ok (lang : string) (page : IndexPage) :
  IndexPage_init lang = Ok page ->
  supported lang /\ filename (IndexPage_base page) = "index.rst" /\
  tocEntries page = [].
Proof.
  unfold IndexPage_init, mbind, result_bind.
  destruct (SphinxPage_init _ _) as [base|] eqn:B; [|discriminate].
  intros [= <-]. simpl. apply SphinxPage_init_Ok in B as (S & _ & ->). auto.
Qed.

Lemma EnumsPage_init_Ok (lang : string) (l : list Enum) (page : EnumsPage) :
  EnumsPage_init lang l = Ok page ->
  supported lang /\ filename (EnumsPage_base page) = "enums.rst".
Proof.
  unfold EnumsPage_init, mbind, result_bind.
  destruct (SphinxPage_init _ _) as [base|] eqn:B; [|discriminate].
  destruct (_translate_enums base l); [|discriminate].
  intros [= <-]. simpl. apply SphinxPage_init_Ok in B as (S & _ & ->). auto.
Qed.

End PageFacts.

(** ** The page builders, claim by claim *)

Section PageClaims.
Context `{abstractapi}.

(** The two flags of a class page: [hasMethods] is the boolean "the list of
    instance methods is not empty"; [hasClassMethods] is the number of class
    methods, an integer.  Both are falsy exactly on an empty list. *)
Lemma class_page_flags (page : ClassPage) :
  hasMethods page = VBool (negb (Nat.eqb (length (methods page)) 0)) /\
  hasClassMethods page = VInt (Z.of_nat (length (classMethods page))) /\
  is_bool (hasClassMethods page) = false /\
  truthy (hasClassMethods page) = negb (Nat.eqb (length (classMethods page)) 0).
Proof.
  unfold hasMethods, hasClassMethods, _has_methods, _has_class_methods.
  repeat split; simpl.
  - f_equal. destruct (length (methods page)); reflexivity.
  - destruct (length (classMethods page)); reflexivity.
Qed.

(** A class page built from a class without instance methods reports
    [hasMethods = False]. *)
Lemma no_instance_methods_no_flag (c : Class_) (lang : string) (page : ClassPage) :
  Class_instanceMethods c = [] ->
  ClassPage_init c lang = Ok page ->
  hasMethods page = VBool false.
Proof.
  intros E I. apply ClassPage_init_Ok in I as (base & ns & _ & _ & _ & _ & M & _).
  rewrite E in M. injection M as M.
  unfold hasMethods, _has_methods. by rewrite <- M.
Qed.

(** C3: the file name in the index entry that [add_class_entry] appends for
    a class is the file name of that class's own page; both are
    [_classname_to_filename] of the class name. *)
Theorem index_entry_names_the_class_page (c : Class_) (lang : string)
    (page : ClassPage) (indexPage : IndexPage) :
  ClassPage_init c lang = Ok page ->
  tocEntries (add_class_entry indexPage c) =
    tocEntries indexPage ++ [{| entryName := filename (ClassPage_base page) |}] /\
  filename (ClassPage_base page) = _classname_to_filename (Class_name c).
Proof.
  intros I. apply ClassPage_init_Ok in I as (base & ns & B & <- & _).
  apply SphinxPage_init_Ok in B as (_ & _ & ->). split; reflexivity.
Qed.

(** C5: the list that [_translate_enum_values] returns has one entry per
    enumerator, and its i-th entry is the translation of the i-th
    enumerator of the enum. *)
Theorem enumerators_keep_declaration_order (self : SphinxPage) (enum : Enum)
    (l : list TranslatedEnumerator) :
  _translate_enum_values self enum = Ok l ->
  length l = length (Enum_enumerators enum) /\
  forall (i : nat) (e : Enumerator),
    Enum_enumerators enum !! i = Some e ->
    exists t, l !! i = Some t /\
      translate_enumerator self e = Ok t /\
      tv_name t = Name_translate (Enumerator_name e) (nameTranslator self) false /\
      tv_value t = translate_value e (langTranslator self).
Proof.
  unfold _translate_enum_values. intros E.
  apply append_each_Ok in E as (ts & F & ->). simpl. split.
  - symmetry. eapply Forall2_length, F.
  - intros i e Hi.
    destruct (Forall2_lookup_l _ _ _ _ _ F Hi) as (t & Ht & Et).
    exists t. split; [exact Ht|]. split; [exact Et|].
    unfold translate_enumerator, mbind, result_bind in Et.
    destruct (translate_brief _ _); [|discriminate].
    injection Et as <-. split; reflexivity.
Qed.

(** The translation is produced whenever every enumerator is documented. *)
Lemma _translate_enum_values_total (self : SphinxPage) (enum : Enum) :
  (forall e, In e (Enum_enumerators enum) ->
             is_Some (Enumerator_briefDescription e)) ->
  exists l, _translate_enum_values self enum = Ok l.
Proof.
  intros Hall. apply append_each_total. intros e I.
  destruct (Hall e I) as (d & Ed).
  unfold translate_enumerator. rewrite Ed. simpl. eauto.
Qed.

(** The same order on the Enums page itself. *)
Lemma EnumsPage_enumerators_order (lang : string) (l : list Enum)
    (page : EnumsPage) :
  EnumsPage_init lang l = Ok page ->
  Forall2 (fun enum te =>
             _translate_enum_values (EnumsPage_base page) enum =
               Ok (te_enumerators te)) l (enums page).
Proof.
  unfold EnumsPage_init, mbind, result_bind.
  destruct (SphinxPage_init _ _) as [base|]; [|discriminate].
  destruct (_translate_enums base l) as [tr|] eqn:E; [|discriminate].
  intros [= <-]. simpl. apply append_each_Ok in E as (ts & F & ->). simpl.
  eapply Forall2_impl; [exact F|]. intros enum te Et.
  unfold translate_enum, mbind, result_bind in Et.
  destruct (translate_brief _ _); [|discriminate].
  destruct (_translate_enum_values base enum); [|discriminate].
  by injection Et as <-.
Qed.


(** C10: when a class has no Namespace ancestor, [_get_translated_namespace]
    raises [AttributeError], and so does the constructor for every language
    that has translators; no language gives a page.  When the class has such
    an ancestor, the namespace is translated and the constructor never
    raises that exception. *)
Theorem namespace_ancestor_precondition (c : Class_) :
  match find_first_ancestor_by_type c KNamespace with
  | None =>
      (forall self, _get_translated_namespace self c =
                      Raise (AttributeError "name")) /\
      (forall lang, supported lang ->
                    ClassPage_init c lang = Raise (AttributeError "name")) /\
      (forall lang page, ClassPage_init c lang <> Ok page)
  | Some ns =>
      (forall self, _get_translated_namespace self c =
                      Ok (Name_translate (Entity_name ns) (nameTranslator self) true)) /\
      (forall lang, ClassPage_init c lang <> Raise (AttributeError "name"))
  end.
Proof.
  destruct (find_first_ancestor_by_type c KNamespace) as [ns|] eqn:F.
  - split.
    + intros self. unfold _get_translated_namespace. by rewrite F.
    + intros lang. destruct (supported_dec lang) as [S | N].
      * unfold ClassPage_init.
        destruct (SphinxPage_init_supported lang
                    (_classname_to_filename (Class_name c)) S) as (nt & lt & ->).
        unfold mbind, result_bind, _get_translated_namespace. rewrite F.
        destruct (translate_brief _ _) eqn:E2;
          [|apply translate_brief_Raise in E2; subst; discriminate].
        destruct (_translate_methods _ (Class_instanceMethods c)) eqn:E3;
          [|apply _translate_methods_Raise in E3; subst; discriminate].
        destruct (_translate_methods _ (Class_classMethods c)) eqn:E4;
          [|apply _translate_methods_Raise in E4; subst; discriminate].
        discriminate.
      * rewrite (ClassPage_init_other _ _ N). discriminate.
  - repeat split.
    + intros self. unfold _get_translated_namespace. by rewrite F.
    + intros lang S. unfold ClassPage_init.
      destruct (SphinxPage_init_supported lang
                  (_classname_to_filename (Class_name c)) S) as (nt & lt & ->).
      unfold mbind, result_bind, _get_translated_namespace. by rewrite F.
    + intros lang page I.
      apply ClassPage_init_Ok in I as (_ & ns & _ & _ & F' & _). congruence.
Qed.

(** With a Namespace ancestor and every description present, the
    constructor returns a page for both languages. *)
Lemma ClassPage_init_total (c : Class_) (lang : string) :
  supported lang ->
  is_Some (find_first_ancestor_by_type c KNamespace) ->
  is_Some (Class_briefDescription c) ->
  (forall m, In m (Class_instanceMethods c ++ Class_classMethods c) ->
             is_Some (Method_briefDescription m)) ->
  exists page, ClassPage_init c lang = Ok page.
Proof.
  intros S (ns & F) (d & D) M. unfold ClassPage_init.
  destruct (SphinxPage_init_supported lang
              (_classname_to_filename (Class_name c)) S) as (nt & lt & ->).
  unfold mbind, result_bind, _get_translated_namespace. rewrite F, D. simpl.
  unfold _translate_methods.
  assert (forall ms, (forall m, In m ms -> In m (Class_instanceMethods c ++
                                                  Class_classMethods c)) ->
            forall base, exists l, append_each (translate_method base) ms [] = Ok l)
    as Loop.
  { intros ms Sub base. apply append_each_total. intros m I.
    destruct (M m (Sub m I)) as (dm & Dm).
    unfold translate_method. rewrite Dm. simpl. eauto. }
  match goal with
  | |- context [append_each (translate_method ?b) (Class_instanceMethods c) []] =>
      destruct (Loop (Class_instanceMethods c)
                  (fun m I => proj2 (in_app_iff _ _ m) (or_introl I)) b) as (l1 & ->);
      destruct (Loop (Class_classMethods c)
                  (fun m I => proj2 (in_app_iff _ _ m) (or_intror I)) b) as (l2 & ->)
  end.
  eauto.
Qed.

End PageClaims.

(** ** Running a list of actions *)

Section ExecFacts.

Lemma exec_nil (w : World) : exec [] w = (Ok tt, w).
Proof. reflexivity. Qed.

Lemma exec_cons (a : action) (acts : list action) (w : World) :
  exec (a :: acts) w =
    match perform a w with
    | (Ok _, w') => exec acts w'
    | (Raise e, w') => (Raise e, w')
    end.
Proof. reflexivity. Qed.

Lemma exec_app (a1 a2 : list action) (w : World) :
  exec (a1 ++ a2) w =
    match exec a1 w with
    | (Ok _, w') => exec a2 w'
    | (Raise e, w') => (Raise e, w')
    end.
Proof.
  revert w. induction a1 as [|a a1 IH]; intros w; [reflexivity|].
  simpl app. rewrite !exec_cons.
  destruct (perform a w) as [[[]|e] w']; [apply IH | reflexivity].
Qed.

Lemma run_nil {A} (r : result A) (w : World) : run ([], r) w = (r, w).
Proof. reflexivity. Qed.

Lemma run_app {A} (a1 a2 : list action) (r : result A) (w : World) :
  run (a1 ++ a2, r) w =
    match exec a1 w with
    | (Ok _, w') => run (a2, r) w'
    | (Raise e, w') => (Raise e, w')
    end.
Proof.
  unfold run, mbind, IO_bind. simpl. rewrite exec_app.
  destruct (exec a1 w) as [[[]|e] w']; reflexivity.
Qed.

Lemma run_cons {A} (a : action) (acts : list action) (r : result A) (w : World) :
  run (a :: acts, r) w =
    match perform a w with
    | (Ok _, w') => run (acts, r) w'
    | (Raise e, w') => (Raise e, w')
    end.
Proof.
  unfold run, mbind, IO_bind. simpl. rewrite exec_cons.
  destruct (perform a w) as [[[]|e] w']; reflexivity.
Qed.

Lemma run_Ok {A} (acts : list action) (r : result A) (x : A) (w w' : World) :
  run (acts, r) w = (Ok x, w') <-> exec acts w = (Ok tt, w') /\ r = Ok x.
Proof.
  unfold run, mbind, IO_bind, lift. simpl.
  destruct (exec acts w) as [[[]|e] w1]; split.
  - intros [= -> ->]. auto.
  - intros [[= ->] ->]. reflexivity.
  - discriminate.
  - intros [[=] _].
Qed.

(** What one action does when it succeeds, and when it fails. *)
Lemma perform_Ok (a : action) (w w' : World) :
  perform a w = (Ok tt, w') ->
  match a with
  | Ensure d =>
      (is_Some (nodes w !! d) /\ w' = w) \/
      (nodes w !! d = None /\ allowed w d (EvMkdir d) = true /\
       w' = after_effect w (<[d := Dir]> (nodes w)) (EvMkdir d))
  | Put p c =>
      nodes w !! p <> Some Dir /\ allowed w p (EvWrite p c) = true /\
      w' = after_effect w (<[p := File c]> (nodes w)) (EvWrite p c)
  end.
Proof.
  destruct a as [d | p c].
  - unfold perform, mbind, IO_bind, os_path_exists, os_mkdir.
    destruct (nodes w !! d) as [n|] eqn:E.
    + rewrite bool_decide_eq_true_2 by eauto. simpl. intros [= <-]. left. eauto.
    + rewrite bool_decide_eq_false_2 by (intros [? ?]; discriminate).
      simpl. rewrite E. destruct (allowed w d (EvMkdir d)); [|discriminate].
      intros [= <-]. right. auto.
  - unfold perform, write_file.
    destruct (nodes w !! p) as [[|c0]|] eqn:E; [discriminate| |];
      (destruct (allowed w p (EvWrite p c)); [|discriminate]);
      intros [= <-]; repeat split; discriminate.
Qed.

Lemma perform_Raise (a : action) (w w' : World) (e : exn) :
  perform a w = (Raise e, w') ->
  w' = w /\
  match a with
  | Ensure d =>
      e = OSError d /\ nodes w !! d = None /\ allowed w d (EvMkdir d) = false
  | Put p c =>
      e = IOError p /\
      (nodes w !! p = Some Dir \/ allowed w p (EvWrite p c) = false)
  end.
Proof.
  destruct a as [d | p c].
  - unfold perform, mbind, IO_bind, os_path_exists, os_mkdir.
    destruct (nodes w !! d) as [n|] eqn:E.
    + rewrite bool_decide_eq_true_2 by eauto. discriminate.
    + rewrite bool_decide_eq_false_2 by (intros [? ?]; discriminate).
      simpl. rewrite E. destruct (allowed w d (EvMkdir d)); [discriminate|].
      intros [= <- <-]. auto.
  - unfold perform, write_file.
    destruct (nodes w !! p) as [[|c0]|] eqn:E;
      [intros [= <- <-]; auto | |];
      (destruct (allowed w p (EvWrite p c)); [discriminate|]);
      intros [= <- <-]; auto.
Qed.

(** An action that succeeds on a path that exists leaves it there, leaves a
    directory a directory and changes neither what is refused nor any path
    but its own. *)
Lemma perform_step (a : action) (w : World) :
  denied (perform a w).2 = denied w /\
  (forall k, is_Some (nodes w !! k) -> is_Some (nodes (perform a w).2 !! k)) /\
  (forall k, nodes w !! k = Some Dir -> nodes (perform a w).2 !! k = Some Dir) /\
  (forall k, action_path a <> k -> nodes (perform a w).2 !! k = nodes w !! k).
Proof.
  destruct (perform a w) as [[[]|e] w'] eqn:P; cbn [snd].
  - apply perform_Ok in P. destruct a as [d | p c].
    + destruct P as [[_ ->] | (Ed & _ & ->)]; [by repeat split|]. simpl.
      split; [reflexivity|]. split; [|split]; intros k Hk.
      * destruct (String.eqb_spec d k) as [-> | N];
          [rewrite lookup_insert_eq; eauto | by rewrite lookup_insert_ne].
      * destruct (String.eqb_spec d k) as [-> | N];
          [by rewrite lookup_insert_eq | by rewrite lookup_insert_ne].
      * by rewrite lookup_insert_ne.
    + destruct P as (Np & _ & ->). simpl.
      split; [reflexivity|]. split; [|split]; intros k Hk.
      * destruct (String.eqb_spec p k) as [-> | N];
          [rewrite lookup_insert_eq; eauto | by rewrite lookup_insert_ne].
      * destruct (String.eqb_spec p k) as [-> | N];
          [congruence | by rewrite lookup_insert_ne].
      * by rewrite lookup_insert_ne.
  - apply perform_Raise in P as [-> _]. by repeat split.
Qed.


Lemma exec_keeps (acts : list action) (w : World) (k : string) :
  (is_Some (nodes w !! k) -> is_Some (nodes (exec acts w).2 !! k)) /\
  (nodes w !! k = Some Dir -> nodes (exec acts w).2 !! k = Some Dir).
Proof.
  revert w. induction acts as [|a rest IH]; intros w; [by split|].
  rewrite exec_cons. destruct (perform_step a w) as (_ & S & D & _).
  destruct (perform a w) as [[[]|e] w']; cbn [snd] in *.
  - destruct (IH w') as [IH1 IH2]. split; intros Hk; [apply IH1, S | apply IH2, D];
      exact Hk.
  - split; [apply S | apply D].
Qed.




(** What a path holds after a run that succeeded: the last content written
    to it in the run, whatever it held before; otherwise what it held
    before; otherwise a directory that the run created. *)
Lemma exec_Ok_lookup (acts : list action) (w w' : World) (k : string) :
  exec acts w = (Ok tt, w') ->
  nodes w' !! k =
    match last_put acts k with
    | Some c => Some (File c)
    | None =>
        match nodes w !! k with
        | Some n => Some n
        | None => if ensures acts k then Some Dir else None
        end
    end.
Proof.
  revert w. induction acts as [|a rest IH]; intros w.
  - intros [= <-]. simpl. by destruct (nodes w !! k).
  - rewrite exec_cons. destruct (perform a w) as [[[]|e] w1] eqn:P; [|discriminate].
    apply perform_Ok in P. intros E. rewrite (IH _ E). destruct a as [d | p c]; simpl.
    + destruct (last_put rest k); [reflexivity|].
      destruct P as [[(n & Ed) ->] | (Ed & _ & ->)]; simpl.
      * destruct (String.eqb_spec d k) as [-> | N]; simpl; [by rewrite Ed|].
        reflexivity.
      * destruct (String.eqb_spec d k) as [-> | N]; simpl.
        -- by rewrite lookup_insert_eq, Ed.
        -- by rewrite lookup_insert_ne.
    + destruct P as (_ & _ & ->). simpl.
      destruct (last_put rest k); [reflexivity|].
      destruct (String.eqb_spec p k) as [-> | N];
        [by rewrite lookup_insert_eq | by rewrite lookup_insert_ne].
Qed.

Lemma last_put_In (acts : list action) (p c : string) :
  In (Put p c) acts -> is_Some (last_put acts p).
Proof.
  induction acts as [|a rest IH]; simpl; [tauto|].
  intros [-> | I].
  - destruct (last_put rest p); [eauto|]. rewrite String.eqb_refl. eauto.
  - destruct a; [auto|]. destruct (IH I) as (c' & ->). eauto.
Qed.


(** The journal of a run that succeeded: its writes are those of the
    actions, in their order. *)
Lemma exec_Ok_journal (acts : list action) (w w' : World) :
  exec acts w = (Ok tt, w') ->
  exists evs, journal w' = journal w ++ evs /\
              List.filter is_write evs = writes_of acts.
Proof.
  revert w. induction acts as [|a rest IH]; intros w.
  - intros [= <-]. exists []. by rewrite app_nil_r.
  - rewrite exec_cons. destruct (perform a w) as [[[]|e] w1] eqn:P; [|discriminate].
    apply perform_Ok in P. intros E. destruct (IH _ E) as (evs & J & F).
    destruct a as [d | p c].
    + destruct P as [[_ ->] | (_ & _ & ->)]; [eauto|]. simpl in J.
      exists (EvMkdir d :: evs). rewrite J, <- app_assoc. auto.
    + destruct P as (_ & _ & ->). simpl in J.
      exists (EvWrite p c :: evs). rewrite J, <- app_assoc. simpl. by rewrite F.
Qed.

(** When the directories are there already, the journal grows by the
    writes alone. *)
Lemma exec_Ok_journal_present (acts : list action) (w w' : World) :
  (forall k, ensures acts k = true -> is_Some (nodes w !! k)) ->
  exec acts w = (Ok tt, w') ->
  journal w' = journal w ++ writes_of acts.
Proof.
  revert w. induction acts as [|a rest IH]; intros w Hd.
  - intros [= <-]. by rewrite app_nil_r.
  - rewrite exec_cons. destruct (perform a w) as [[[]|e] w1] eqn:P; [|discriminate].
    pose proof (perform_step a w) as (_ & S & _). rewrite P in S. cbn [snd] in S.
    apply perform_Ok in P. intros E. destruct a as [d | p c].
    + destruct P as [[_ ->] | (Ed & _ & _)].
      * apply IH; [|exact E]. intros k Hk. apply Hd. simpl. rewrite Hk.
        apply orb_true_r.
      * destruct (Hd d) as (n & Hn); [simpl; by rewrite String.eqb_refl|].
        congruence.
    + apply IH in E; [|intros k Hk; by apply S, Hd].
      destruct P as (_ & _ & ->). simpl in E. rewrite E, <- app_assoc. reflexivity.
Qed.





End ExecFacts.

(** ** [generate] performs the actions of its plan *)

Section GenerateFacts.
Context `{pystache}.

Lemma write_perform (page : Page) (directory : string) (w : World) :
  write page directory w = perform (put_page directory page) w.
Proof. reflexivity. Qed.

Lemma generate_classes_run (lang directory : string) (classes : list Class_)
    (indexPage : IndexPage) (w : World) :
  generate_classes lang directory classes indexPage w =
    run (plan_classes lang directory classes indexPage) w.
Proof.
  revert indexPage w. induction classes as [|c rest IH]; intros indexPage w.
  - reflexivity.
  - simpl. unfold mbind at 1, IO_bind at 1, lift at 1.
    destruct (ClassPage_init c lang) as [page|e]; [|reflexivity].
    unfold mbind at 1, IO_bind at 1. rewrite write_perform.
    rewrite (surjective_pairing (plan_classes _ _ rest _)) at 1.
    simpl fst. simpl snd. rewrite run_cons.
    destruct (perform _ w) as [[[]|e] w']; [|reflexivity].
    rewrite IH. by rewrite <- surjective_pairing.
Qed.

Lemma run_language_plan (directory : string) (enumsPage : EnumsPage)
    (p : list action * result IndexPage) (w : World) :
  run (match p.2 with
       | Ok indexPage =>
           ([Ensure directory; put_page directory (PEnums enumsPage)]
              ++ p.1 ++ [put_page directory (PIndex indexPage)], Ok tt)
       | Raise e =>
           ([Ensure directory; put_page directory (PEnums enumsPage)]
              ++ p.1, Raise e)
       end) w =
    match perform (Ensure directory) w with
    | (Ok _, w1) =>
        match perform (put_page directory (PEnums enumsPage)) w1 with
        | (Ok _, w2) =>
            match run p w2 with
            | (Ok indexPage, w3) =>
                perform (put_page directory (PIndex indexPage)) w3
            | (Raise e, w3) => (Raise e, w3)
            end
        | (Raise e, w2) => (Raise e, w2)
        end
    | (Raise e, w1) => (Raise e, w1)
    end.
Proof.
  destruct p as [acts [indexPage|e]]; cbn [fst snd app]; rewrite run_cons;
    (destruct (perform (Ensure directory) w) as [[[]|e1] w1]; [|reflexivity]);
    rewrite run_cons;
    (destruct (perform _ w1) as [[[]|e2] w2]; [|reflexivity]).
  - rewrite run_app. unfold run at 2, mbind, IO_bind, lift. cbn [fst snd].
    destruct (exec acts w2) as [[[]|e3] w3]; [|reflexivity].
    rewrite run_cons.
    destruct (perform _ w3) as [[[]|e4] w4]; reflexivity.
  - unfold run, mbind, IO_bind, lift. cbn [fst snd].
    destruct (exec acts w2) as [[[]|e3] w3]; reflexivity.
Qed.

Lemma IO_bind_unfold {A B} (m : IO A) (k : A -> IO B) (w : World) :
  (m ≫= k) w =
    match m w with
    | (Ok a, w') => k a w'
    | (Raise e, w') => (Raise e, w')
    end.
Proof. reflexivity. Qed.

Lemma IO_bind_lift_Ok {A B} (a : A) (k : A -> IO B) (w : World) :
  (lift (Ok a) ≫= k) w = k a w.
Proof. reflexivity. Qed.

Lemma IO_bind_lift_Raise {A B} (e : exn) (k : A -> IO B) (w : World) :
  (lift (Raise e) ≫= k) w = (Raise e, w).
Proof. reflexivity. Qed.

Lemma ensure_directory_perform (directory : string) (k : IO unit) (w : World) :
  (present ← os_path_exists directory;
   _ ← (if negb present then os_mkdir directory else mret tt); k) w =
  match perform (Ensure directory) w with
  | (Ok _, w') => k w'
  | (Raise e, w') => (Raise e, w')
  end.
Proof.
  unfold perform, mbind, IO_bind, os_path_exists.
  destruct (bool_decide (is_Some (nodes w !! directory))); simpl.
  - reflexivity.
  - by destruct (os_mkdir directory w) as [[[]|e] w'].
Qed.

Lemma generate_language_run (self : DocGenerator) (G : Globals) (lang : string)
    (w : World) :
  generate_language self G lang w = run (plan_language self G lang) w.
Proof.
  unfold generate_language, plan_language, global.
  destruct (_get_subdirectory self lang) as [sub|e];
    [rewrite IO_bind_lift_Ok | by rewrite IO_bind_lift_Raise].
  destruct (args G) as [a|];
    [rewrite IO_bind_lift_Ok | by rewrite IO_bind_lift_Raise].
  set (directory := os_path_join (outputdir a) sub).
  rewrite ensure_directory_perform.
  assert (forall (A : Type) (acts : list action) (r : result A),
            run (Ensure directory :: acts, r) w =
            match perform (Ensure directory) w with
            | (Ok _, w') => run (acts, r) w'
            | (Raise e, w') => (Raise e, w')
            end) as Hrun.
  { intros A acts r. apply run_cons. }
  destruct (perform (Ensure directory) w) as [[[]|e1] w1] eqn:Eperf.
  - destruct (absApiParser G) as [parser|];
      [rewrite IO_bind_lift_Ok | by rewrite IO_bind_lift_Raise, Hrun].
    destruct (EnumsPage_init lang _) as [enumsPage|e];
      [rewrite IO_bind_lift_Ok | by rewrite IO_bind_lift_Raise, Hrun].
    rewrite IO_bind_unfold, write_perform.
    destruct (IndexPage_init lang) as [indexPage|e].
    + rewrite run_language_plan, Eperf.
      destruct (perform _ w1) as [[[]|e2] w2]; [|reflexivity].
      rewrite !IO_bind_lift_Ok, IO_bind_unfold, generate_classes_run.
      destruct (run _ w2) as [[indexPage0|e3] w3]; reflexivity.
    + cbn [app]. rewrite Hrun, run_cons.
      destruct (perform _ w1) as [[[]|e2] w2]; reflexivity.
  - destruct (absApiParser G) as [parser|]; [|by rewrite Hrun].
    destruct (EnumsPage_init lang _) as [enumsPage|e]; [|by rewrite Hrun].
    destruct (IndexPage_init lang) as [indexPage|e].
    + by rewrite run_language_plan, Eperf.
    + cbn [app]. by rewrite Hrun.
Qed.

Lemma for_each_run (self : DocGenerator) (G : Globals) (langs : list string)
    (w : World) :
  for_each langs (generate_language self G) w =
    run (plan_languages self G langs) w.
Proof.
  revert w. induction langs as [|lang rest IH]; intros w; [reflexivity|].
  cbn [for_each plan_languages].
  rewrite IO_bind_unfold, generate_language_run.
  destruct (plan_language self G lang) as [acts [[]|e]]; cbn [fst snd].
  - rewrite run_app. unfold run at 1, mbind, IO_bind, lift. cbn [fst snd].
    destruct (exec acts w) as [[[]|e] w']; [|reflexivity].
    rewrite IH. by destruct (plan_languages self G rest).
  - by destruct (run (acts, Raise e) w) as [[[]|e'] w'] eqn:E;
      [apply run_Ok in E as [_ [=]]|].
Qed.

Lemma generate_run (self : DocGenerator) (outputdir : string) (G : Globals)
    (w : World) :
  generate self outputdir G w = run (plan self G) w.
Proof. apply for_each_run. Qed.

End GenerateFacts.

(** ** The plan of a run *)

Section PlanFacts.
Context `{pystache}.

Lemma add_class_entries (indexPage : IndexPage) (classes : list Class_) :
  IndexPage_base (foldl add_class_entry indexPage classes) =
    IndexPage_base indexPage /\
  tocEntries (foldl add_class_entry indexPage classes) =
    tocEntries indexPage ++
    List.map (fun c => {| entryName := _classname_to_filename (Class_name c) |})
      classes.
Proof.
  revert indexPage. induction classes as [|c rest IH]; intros indexPage; simpl.
  - by rewrite app_nil_r.
  - destruct (IH (add_class_entry indexPage c)) as [-> ->]. simpl.
    by rewrite <- app_assoc.
Qed.

Lemma plan_classes_Ok (lang directory : string) (classes : list Class_)
    (indexPage indexPage' : IndexPage) (acts : list action) :
  plan_classes lang directory classes indexPage = (acts, Ok indexPage') ->
  exists pages,
    Forall2 (fun c p => ClassPage_init c lang = Ok p) classes pages /\
    acts = List.map (fun p => put_page directory (PClass p)) pages /\
    indexPage' = foldl add_class_entry indexPage classes.
Proof.
  revert indexPage acts. induction classes as [|c rest IH]; intros indexPage acts.
  - intros [= <- <-]. exists []. by repeat split.
  - simpl. destruct (ClassPage_init c lang) as [page|e] eqn:Ec; [|discriminate].
    destruct (plan_classes lang directory rest _) as [acts' r] eqn:Er.
    cbn [fst snd]. intros [= <- ->].
    destruct (IH _ _ Er) as (pages & F & -> & ->).
    exists (page :: pages). by repeat split; [constructor|..].
Qed.


Lemma _get_subdirectory_Ok (self : DocGenerator) (lang sub : string) :
  _get_subdirectory self lang = Ok sub ->
  supported lang /\ (sub = "c" \/ sub = "cpp").
Proof.
  unfold _get_subdirectory, supported.
  destruct (String.eqb_spec (lower lang) "c") as [E|_]; [intros [= <-]; auto|].
  destruct (String.eqb_spec (lower lang) "c++") as [E|_]; [intros [= <-]; auto|].
  discriminate.
Qed.

Lemma _get_subdirectory_other (self : DocGenerator) (lang : string) :
  ~ supported lang ->
  _get_subdirectory self lang =
    Raise (ValueError ("'" +:+ lang +:+ "' language not supported")).
Proof.
  intros N. unfold _get_subdirectory.
  destruct (String.eqb_spec (lower lang) "c") as [E|_];
    [exfalso; apply N; left; exact E|].
  destruct (String.eqb_spec (lower lang) "c++") as [E|_];
    [exfalso; apply N; right; exact E|].
  reflexivity.
Qed.

(** The shape of the plan for one language when every page can be built. *)
Lemma plan_language_Ok (self : DocGenerator) (G : Globals) (lang : string)
    (acts : list action) :
  plan_language self G lang = (acts, Ok tt) ->
  exists a parser sub enumsPage classPages indexPage,
    args G = Some a /\ absApiParser G = Some parser /\
    _get_subdirectory self lang = Ok sub /\
    EnumsPage_init lang (values (enumsIndex parser)) = Ok enumsPage /\
    Forall2 (fun c p => ClassPage_init c lang = Ok p)
      (values (classesIndex parser)) classPages /\
    filename (IndexPage_base indexPage) = "index.rst" /\
    tocEntries indexPage =
      List.map (fun c => {| entryName := _classname_to_filename (Class_name c) |})
        (values (classesIndex parser)) /\
    let directory := os_path_join (outputdir a) sub in
    acts = Ensure directory :: put_page directory (PEnums enumsPage) ::
           List.map (fun p => put_page directory (PClass p)) classPages ++
           [put_page directory (PIndex indexPage)].
Proof.
  unfold plan_language.
  destruct (_get_subdirectory self lang) as [sub|] eqn:Es; [|discriminate].
  destruct (args G) as [a|]; [|discriminate].
  destruct (absApiParser G) as [parser|]; [|discriminate].
  destruct (EnumsPage_init lang _) as [enumsPage|] eqn:Ee; [|discriminate].
  destruct (IndexPage_init lang) as [indexPage0|] eqn:Ei; [|discriminate].
  destruct (plan_classes lang _ _ indexPage0) as [acts' [indexPage|]] eqn:Ep;
    cbn [fst snd]; [|discriminate].
  intros [= <-].
  destruct (plan_classes_Ok _ _ _ _ _ _ Ep) as (pages & F & -> & ->).
  destruct (add_class_entries indexPage0 (values (classesIndex parser)))
    as [Eb Et].
  exists a, parser, sub, enumsPage, pages,
    (foldl add_class_entry indexPage0 (values (classesIndex parser))).
  repeat split; try assumption.
  - rewrite Eb. by apply IndexPage_init_Ok in Ei as (_ & -> & _).
  - rewrite Et. by apply IndexPage_init_Ok in Ei as (_ & _ & ->).
Qed.



(** Whatever the outcome, the journal only grows, and by effects of the
    actions. *)
Lemma exec_journal_effects (P : event -> Prop) (acts : list action) (w : World) :
  Forall (fun a => P (effect a)) acts ->
  exists evs, journal (exec acts w).2 = journal w ++ evs /\ Forall P evs.
Proof.
  revert w. induction acts as [|a rest IH]; intros w Hall.
  - exists []. by rewrite app_nil_r.
  - inversion Hall as [|? ? Ha Hrest]; subst. rewrite exec_cons.
    destruct (perform a w) as [[[]|e] w1] eqn:Pa.
    + destruct (IH w1 Hrest) as (evs & J & F). rewrite J.
      apply perform_Ok in Pa. destruct a as [d | p c].
      * destruct Pa as [[_ ->] | (_ & _ & ->)]; [eauto|]. simpl.
        exists (EvMkdir d :: evs). rewrite <- app_assoc. by split; [|constructor].
      * destruct Pa as (_ & _ & ->). simpl.
        exists (EvWrite p c :: evs). rewrite <- app_assoc. by split; [|constructor].
    + apply perform_Raise in Pa as [-> _]. exists []. by rewrite app_nil_r.
Qed.

Lemma run_world {A} (acts : list action) (r : result A) (w : World) :
  (run (acts, r) w).2 = (exec acts w).2.
Proof.
  unfold run, mbind, IO_bind, lift. cbn [fst snd].
  by destruct (exec acts w) as [[[]|e] w'].
Qed.

Lemma writes_of_pages (directory : string) (pages : list Page) :
  writes_of (List.map (put_page directory) pages) =
    List.map (written directory) pages.
Proof. induction pages as [|p rest IH]; simpl; [reflexivity | by rewrite IH]. Qed.

Lemma ensures_pages (directory : string) (pages : list Page) (k : string) :
  ensures (List.map (put_page directory) pages) k = false.
Proof. induction pages as [|p rest IH]; simpl; [reflexivity | exact IH]. Qed.

End PlanFacts.

(** ** The generator, claim by claim *)

Section GeneratorClaims.
Context `{pystache}.



(** C4: a language that is not supported makes every page constructor and
    [_get_subdirectory] raise [ValueError]; no page exists that could be
    written, and the turn of [generate] for such a language stops before it
    touches the file system. *)
Theorem unsupported_language_raises (lang : string) :
  lower lang <> "c" -> lower lang <> "c++" ->
  (forall fn, SphinxPage_init lang fn = Raise (ValueError lang)) /\
  IndexPage_init lang = Raise (ValueError lang) /\
  (forall l, EnumsPage_init lang l = Raise (ValueError lang)) /\
  (forall c, ClassPage_init c lang = Raise (ValueError lang)) /\
  (forall self, _get_subdirectory self lang =
     Raise (ValueError ("'" +:+ lang +:+ "' language not supported"))) /\
  (forall self G w, generate_language self G lang w =
     (Raise (ValueError ("'" +:+ lang +:+ "' language not supported")), w)).
Proof.
  intros N1 N2.
  assert (~ supported lang) as N by (intros [E | E]; contradiction).
  split; [intros fn; by apply SphinxPage_init_other|].
  split; [by apply IndexPage_init_other|].
  split; [intros l; by apply EnumsPage_init_other|].
  split; [intros c; by apply ClassPage_init_other|].
  split; [intros self; by apply _get_subdirectory_other|].
  intros self G w. rewrite generate_language_run. unfold plan_language.
  by rewrite (_get_subdirectory_other self lang N).
Qed.

Lemma writes_of_turn (directory : string) (enumsPage : EnumsPage)
    (pages : list ClassPage) (indexPage : IndexPage) :
  writes_of (put_page directory (PEnums enumsPage) ::
             List.map (fun p => put_page directory (PClass p)) pages ++
             [put_page directory (PIndex indexPage)]) =
  written directory (PEnums enumsPage) ::
    List.map (fun p => written directory (PClass p)) pages ++
    [written directory (PIndex indexPage)].
Proof.
  simpl. f_equal. induction pages as [|p rest IH]; simpl; [reflexivity|].
  by rewrite IH.
Qed.

Lemma ensures_turn (directory : string) (enumsPage : EnumsPage)
    (pages : list ClassPage) (indexPage : IndexPage) (k : string) :
  ensures (put_page directory (PEnums enumsPage) ::
           List.map (fun p => put_page directory (PClass p)) pages ++
           [put_page directory (PIndex indexPage)]) k = false.
Proof.
  simpl. induction pages as [|p rest IH]; simpl; [reflexivity | exact IH].
Qed.

(** A plan that gives [Ok] has the writes of its languages, one language
    after the other. *)
Lemma plan_language_turn (self : DocGenerator) (G : Globals) (lang : string)
    (acts : list action) :
  plan_language self G lang = (acts, Ok tt) ->
  exists evs directory rest,
    turn_writes self G lang evs /\ writes_of acts = evs /\
    acts = Ensure directory :: rest /\ (forall k, ensures rest k = false).
Proof.
  unfold plan_language.
  destruct (_get_subdirectory self lang) as [sub|] eqn:Es; [|discriminate].
  destruct (args G) as [a|] eqn:Ea; [|discriminate].
  destruct (absApiParser G) as [parser|] eqn:Ep; [|discriminate].
  destruct (EnumsPage_init lang _) as [enumsPage|] eqn:Ee; [|discriminate].
  destruct (IndexPage_init lang) as [indexPage0|] eqn:Ei; [|discriminate].
  destruct (plan_classes lang _ _ indexPage0) as [acts' [indexPage|]] eqn:Epc;
    cbn [fst snd]; [|discriminate].
  intros [= <-].
  destruct (plan_classes_Ok _ _ _ _ _ _ Epc) as (pages & F & -> & ->).
  set (directory := os_path_join (outputdir a) sub).
  set (final := foldl add_class_entry indexPage0 (values (classesIndex parser))).
  exists (written directory (PEnums enumsPage) ::
          List.map (fun p => written directory (PClass p)) pages ++
          [written directory (PIndex final)]),
    directory,
    (put_page directory (PEnums enumsPage) ::
     List.map (fun p => put_page directory (PClass p)) pages ++
     [put_page directory (PIndex final)]).
  split; [|split; [|split; [reflexivity|]]].
  - exists a, parser, sub, enumsPage, pages, indexPage0.
    repeat split; assumption.
  - cbn [app writes_of]. apply writes_of_turn.
  - intros k. apply ensures_turn.
Qed.

Lemma writes_of_app (a1 a2 : list action) :
  writes_of (a1 ++ a2) = writes_of a1 ++ writes_of a2.
Proof.
  induction a1 as [|[d | p c] rest IH]; simpl; [reflexivity | exact IH |].
  by rewrite IH.
Qed.

Lemma plan_languages_turns (self : DocGenerator) (G : Globals)
    (langs : list string) (acts : list action) :
  plan_languages self G langs = (acts, Ok tt) ->
  exists runs,
    Forall2 (turn_writes self G) langs runs /\
    writes_of acts = List.concat runs.
Proof.
  revert acts. induction langs as [|lang rest IH]; intros acts.
  - intros [= <-]. exists []. split; [constructor | reflexivity].
  - simpl. destruct (plan_language self G lang) as [acts1 [[]|e1]] eqn:E1;
      cbn [fst snd]; [|discriminate].
    destruct (plan_languages self G rest) as [acts2 r2]. cbn [fst snd].
    intros [= <- ->].
    destruct (IH _ eq_refl) as (runs & F & W).
    apply plan_language_turn in E1 as (evs & d & tl & T & W1 & _).
    exists (evs :: runs). split; [by constructor|].
    rewrite writes_of_app, W1, W. reflexivity.
Qed.

Lemma prefix_append (s t : string) : String.prefix s (s +:+ t) = true.
Proof.
  induction s as [|c s IH]; simpl; [by destruct t|].
  destruct (ascii_dec c c); [exact IH | contradiction].
Qed.

(** A name that is not an absolute path is joined below the directory. *)
Lemma os_path_join_prefix (directory name : string) :
  starts_with_slash name = false ->
  String.prefix directory (os_path_join directory name) = true.
Proof.
  intros R. unfold os_path_join. rewrite R.
  destruct (String.eqb directory "" || ends_with_slash directory);
    apply prefix_append.
Qed.

(** Every action of a plan is an effect of the run in the sense above. *)
Lemma plan_language_events (self : DocGenerator) (G : Globals) (lang : string) :
  Forall (fun a => output_event G (effect a)) (plan_language self G lang).1.
Proof.
  unfold plan_language.
  destruct (_get_subdirectory self lang) as [sub|] eqn:Es; [|constructor].
  apply _get_subdirectory_Ok in Es as [_ Hsub].
  destruct (args G) as [a|] eqn:Ea; [|constructor].
  set (directory := os_path_join (outputdir a) sub).
  assert (output_event G (EvMkdir directory)) as Hd.
  { by exists a, sub. }
  destruct (absApiParser G) as [parser|] eqn:Ep; [|by repeat constructor].
  assert (forall page name,
            filename (Page_base page) = name ->
            (name = "enums.rst" \/ name = "index.rst" \/
             exists c, In c (values (classesIndex parser)) /\
                       name = _classname_to_filename (Class_name c)) ->
            output_event G (effect (put_page directory page))) as Hp.
  { intros page name Fn Hn. exists a, sub. split; [exact Ea|]. split; [exact Hsub|].
    simpl. exists parser, name. rewrite Fn. fold directory.
    split; [exact Ep|]. split; [reflexivity|]. split; [exact Hn|].
    apply os_path_join_prefix. }
  destruct (EnumsPage_init lang _) as [enumsPage|] eqn:Ee; [|by repeat constructor].
  assert (output_event G (effect (put_page directory (PEnums enumsPage)))) as He.
  { apply EnumsPage_init_Ok in Ee as [_ Fn]. eapply Hp; [exact Fn | auto]. }
  destruct (IndexPage_init lang) as [indexPage0|] eqn:Ei; [|by repeat constructor].
  assert (forall cs idx,
            (forall c, In c cs -> In c (values (classesIndex parser))) ->
            Forall (fun a0 => output_event G (effect a0))
              (plan_classes lang directory cs idx).1) as Hc.
  { induction cs as [|c rest IH]; intros idx Sub; simpl; [constructor|].
    destruct (ClassPage_init c lang) as [page|] eqn:Ec; [|constructor].
    cbn [fst]. constructor.
    - apply ClassPage_init_Ok in Ec as (base & _ & B & <- & _).
      apply SphinxPage_init_Ok in B as (_ & _ & Fn).
      eapply Hp; [exact Fn|]. right; right. exists c. split; [|reflexivity].
      apply Sub. by left.
    - apply IH. intros c' I. apply Sub. by right. }
  specialize (Hc (values (classesIndex parser)) indexPage0 (fun c I => I)).
  destruct (plan_classes lang _ _ indexPage0) as [acts' [indexPage|]] eqn:Epc;
    cbn [fst snd] in *.
  - apply plan_classes_Ok in Epc as (pages & _ & _ & ->).
    repeat constructor; [exact Hd | exact He |].
    apply Forall_app. split; [exact Hc|]. repeat constructor.
    apply (Hp _ "index.rst"); [|auto]. cbn [Page_base].
    destruct (add_class_entries indexPage0 (values (classesIndex parser))) as [-> _].
    by apply IndexPage_init_Ok in Ei as (_ & -> & _).
  - repeat constructor; [exact Hd | exact He | exact Hc].
Qed.

Lemma plan_languages_events (self : DocGenerator) (G : Globals)
    (langs : list string) :
  Forall (fun a => output_event G (effect a)) (plan_languages self G langs).1.
Proof.
  induction langs as [|lang rest IH]; simpl; [constructor|].
  pose proof (plan_language_events self G lang) as Hl.
  destruct (plan_language self G lang) as [acts [[]|e]]; cbn [fst snd] in *.
  - apply Forall_app. by split.
  - exact Hl.
Qed.

(** C2: [generate] gives the same result for every [outputdir] argument and
    every [api] given to the constructor.  Whatever its outcome, each of its
    effects creates a language directory under the global [args.outputdir]
    or writes a page of the global [absApiParser] into one; and when it
    succeeds, its writes are the pages of the enums and classes of the
    global [absApiParser], for C and then for C++. *)
Theorem generate_reads_the_module_globals (api1 api2 : CParser)
    (outputdir1 outputdir2 : string) (G : Globals) (w : World) :
  generate (DocGenerator_init api1) outputdir1 G w =
    generate (DocGenerator_init api2) outputdir2 G w /\
  (exists evs,
     journal (generate (DocGenerator_init api1) outputdir1 G w).2 =
       journal w ++ evs /\
     Forall (output_event G) evs) /\
  (forall w',
     generate (DocGenerator_init api1) outputdir1 G w = (Ok tt, w') ->
     exists evsC evsCpp j,
       turn_writes (DocGenerator_init api1) G "C" evsC /\
       turn_writes (DocGenerator_init api1) G "C++" evsCpp /\
       journal w' = journal w ++ j /\
       List.filter is_write j = evsC ++ evsCpp).
Proof.
  split; [reflexivity|]. split.
  - rewrite generate_run.
    rewrite (surjective_pairing (plan _ G)), run_world.
    apply exec_journal_effects, plan_languages_events.
  - intros w'. rewrite generate_run.
    destruct (plan (DocGenerator_init api1) G) as [acts r] eqn:P.
    intros R. apply run_Ok in R as [E ->].
    apply plan_languages_turns in P as (runs & F & W).
    cbn [languages DocGenerator_init] in F.
    inversion F as [|? evsC ? rest TC F']; subst.
    inversion F' as [|? evsCpp ? rest' TCpp F'']; subst.
    inversion F''; subst.
    destruct (exec_Ok_journal _ _ _ E) as (j & J & Fj).
    exists evsC, evsCpp, j. split; [exact TC|]. split; [exact TCpp|].
    split; [exact J|]. rewrite Fj, W. simpl. by rewrite app_nil_r.
Qed.

(** C6: a successful turn of [generate] for a language leaves in the
    journal, after the directory it may have had to create, the write of the
    Enums page, then the writes of the class pages in the order in which
    [classesIndex] lists the classes, then the write of the Index page, whose
    entries name the class pages in that same order. *)
Theorem generation_order (self : DocGenerator) (G : Globals) (lang : string)
    (w w' : World) :
  generate_language self G lang w = (Ok tt, w') ->
  exists a parser sub enumsPage classPages indexPage mk,
    args G = Some a /\ absApiParser G = Some parser /\
    _get_subdirectory self lang = Ok sub /\
    EnumsPage_init lang (values (enumsIndex parser)) = Ok enumsPage /\
    Forall2 (fun c p => ClassPage_init c lang = Ok p)
      (values (classesIndex parser)) classPages /\
    filename (IndexPage_base indexPage) = "index.rst" /\
    tocEntries indexPage =
      List.map (fun c => {| entryName := _classname_to_filename (Class_name c) |})
        (values (classesIndex parser)) /\
    let directory := os_path_join (outputdir a) sub in
    (mk = [] \/ mk = [EvMkdir directory]) /\
    journal w' = journal w ++ mk ++
      [written directory (PEnums enumsPage)] ++
      List.map (fun p => written directory (PClass p)) classPages ++
      [written directory (PIndex indexPage)].
Proof.
  rewrite generate_language_run.
  destruct (plan_language self G lang) as [acts r] eqn:P.
  intros R. apply run_Ok in R as [E ->].
  destruct (plan_language_Ok _ _ _ _ P)
    as (a & parser & sub & enumsPage & classPages & indexPage &
        Ea & Ep & Es & Ee & F & Fi & Ft & ->).
  set (directory := os_path_join (outputdir a) sub) in *.
  rewrite exec_cons in E.
  destruct (perform (Ensure directory) w) as [[[]|e1] w1] eqn:P1; [|discriminate].
  apply perform_Ok in P1.
  set (pages := PEnums enumsPage :: List.map PClass classPages ++ [PIndex indexPage]).
  assert (put_page directory (PEnums enumsPage)
            :: List.map (fun p => put_page directory (PClass p)) classPages ++
               [put_page directory (PIndex indexPage)] =
          List.map (put_page directory) pages) as Hacts.
  { unfold pages. simpl. by rewrite map_app, map_map. }
  rewrite Hacts in E.
  apply exec_Ok_journal_present in E;
    [|intros k Hk; by rewrite ensures_pages in Hk].
  rewrite writes_of_pages in E. unfold pages in E. simpl in E.
  rewrite map_app, map_map in E. simpl in E.
  destruct P1 as [[_ ->] | (_ & _ & ->)].
  - exists a, parser, sub, enumsPage, classPages, indexPage, [].
    repeat split; first [assumption | by left].
  - exists a, parser, sub, enumsPage, classPages, indexPage, [EvMkdir directory].
    repeat split;
      first [assumption | by right
            | rewrite E; simpl; by rewrite <- app_assoc].
Qed.

(** The languages are handled one after the other, C first. *)
Lemma generate_both_languages (api : CParser) (outputdir : string)
    (G : Globals) (w w' : World) :
  generate (DocGenerator_init api) outputdir G w = (Ok tt, w') <->
  exists w1,
    generate_language (DocGenerator_init api) G "C" w = (Ok tt, w1) /\
    generate_language (DocGenerator_init api) G "C++" w1 = (Ok tt, w').
Proof.
  unfold generate. cbn [languages DocGenerator_init for_each].
  rewrite IO_bind_unfold.
  destruct (generate_language _ G "C" w) as [[[]|e] w1] eqn:E1.
  - rewrite IO_bind_unfold.
    destruct (generate_language _ G "C++" w1) as [[[]|e] w2] eqn:E2.
    + split.
      * intros E. injection E as <-. exists w1. by split.
      * intros (w1' & E1' & E2'). injection E1' as <-. rewrite E2 in E2'.
        by injection E2' as <-.
    + split; [discriminate|].
      intros (w1' & E1' & E2'). injection E1' as <-. rewrite E2 in E2'.
      discriminate E2'.
  - split; [discriminate|]. intros (w1' & E1' & _). discriminate E1'.
Qed.


End GeneratorClaims.

(** * Further properties of the code *)

(** ** Strings *)

Lemma length_append (s t : string) :
  String.length (s +:+ t) = String.length s + String.length t.
Proof. induction s as [|c s IH]; simpl; [reflexivity | by rewrite IH]. Qed.

Lemma append_inj_r (s t u : string) : s +:+ t = s +:+ u -> t = u.
Proof.
  induction s as [|c s IH]; simpl; [done|]. intros [= E]. by apply IH.
Qed.

Lemma length_repeat_str (s : string) (n : nat) :
  String.length (repeat_str s n) = n * String.length s.
Proof.
  induction n as [|n IH]; simpl; [reflexivity|].
  rewrite length_append, IH. lia.
Qed.

(** ** RstTools *)

(** X1: a section title is followed by one line of underline, and preceded
    by the same line when an overline is asked for; the line is as long as
    the title times the length of the underline character. *)
Theorem make_section_underline (text char : string) :
  exists underline,
    String.length underline = String.length text * String.length char /\
    RstTools.make_section text char false = text +:+ newline +:+ underline /\
    RstTools.make_section text char true =
      underline +:+ newline +:+ text +:+ newline +:+ underline.
Proof.
  exists (repeat_str char (String.length text)).
  split; [apply length_repeat_str|]. split; reflexivity.
Qed.

Lemma get_repeat_star (n i : nat) :
  i < n -> String.get i (repeat_str "*" n) = Some "*"%char.
Proof.
  revert i. induction n as [|n IH]; intros i Hi; [lia|].
  destruct i as [|i]; simpl; [reflexivity|]. apply IH. lia.
Qed.

(** X2: a chapter title stands between two equal lines, each made of as
    many stars as the title has characters and of nothing else, so the
    whole is three times the title plus two line breaks. *)
Theorem make_chapter_stars (text : string) :
  let stars := repeat_str "*" (String.length text) in
  RstTools.make_chapter text = stars +:+ newline +:+ text +:+ newline +:+ stars /\
  String.length stars = String.length text /\
  (forall i, i < String.length text -> String.get i stars = Some "*"%char) /\
  String.length (RstTools.make_chapter text) = 3 * String.length text + 2.
Proof.
  intros stars.
  assert (String.length stars = String.length text) as L.
  { unfold stars. rewrite length_repeat_str. simpl. lia. }
  split; [reflexivity|]. split; [exact L|].
  split; [intros i Hi; by apply get_repeat_star|].
  unfold RstTools.make_chapter, RstTools.make_section. cbn [join].
  fold stars. rewrite !length_append, L. simpl. lia.
Qed.

(** ** Page builders *)

Section MorePageFacts.
Context `{pystache}.

Lemma append_each_Ok_iff {A B} (body : A -> result B) (items : list A) :
  (exists l, append_each body items [] = Ok l) <->
  (forall x, In x items -> exists y, body x = Ok y).
Proof.
  split.
  - intros (l & E) x I. apply append_each_Ok in E as (ys & F & _).
    apply list_elem_of_In, list_elem_of_lookup in I as (i & Hi).
    destruct (Forall2_lookup_l _ _ _ _ _ F Hi) as (y & _ & Ey). eauto.
  - apply append_each_total.
Qed.

Lemma translate_brief_Ok (d : option Description) (dt : DocTranslator) :
  (exists s, translate_brief d dt = Ok s) <-> is_Some d.
Proof.
  destruct d as [d|]; simpl; split.
  - eauto.
  - eauto.
  - intros (s & [=]).
  - intros (d & [=]).
Qed.

Lemma translate_enumerator_Ok (self : SphinxPage) (e : Enumerator) :
  (exists t, translate_enumerator self e = Ok t) <->
  is_Some (Enumerator_briefDescription e).
Proof.
  unfold translate_enumerator, mbind, result_bind.
  destruct (Enumerator_briefDescription e) as [d|]; simpl; split; eauto.
  - intros (t & [=]).
  - intros (d & [=]).
Qed.

Lemma translate_method_Ok (self : SphinxPage) (m : Method) :
  (exists a, translate_method self m = Ok a) <->
  is_Some (Method_briefDescription m).
Proof.
  unfold translate_method, mbind, result_bind.
  destruct (Method_briefDescription m) as [d|]; simpl; split; eauto.
  - intros (t & [=]).
  - intros (d & [=]).
Qed.

Lemma translate_enum_Ok (self : SphinxPage) (enum : Enum) :
  (exists te, translate_enum self enum = Ok te) <-> Enum_documented enum.
Proof.
  unfold translate_enum, Enum_documented, mbind, result_bind.
  pose proof (append_each_Ok_iff (translate_enumerator self)
                (Enum_enumerators enum)) as Hloop.
  fold (_translate_enum_values self enum) in Hloop.
  destruct (Enum_briefDescription enum) as [d|]; simpl.
  - destruct (_translate_enum_values self enum) as [l|e] eqn:El; split.
    + intros _. split; [eauto|]. intros e I.
      apply translate_enumerator_Ok with (self := self).
      apply Hloop; eauto.
    + eauto.
    + intros (te & [=]).
    + intros [_ Hall]. destruct (proj2 Hloop) as (l & [=]).
      intros e' I. apply translate_enumerator_Ok, Hall, I.
  - split; [intros (te & [=]) | intros [(d & [=]) _]].
Qed.


(** X4: the Enums page has one entry per enum, in the order of the list it
    was given; the i-th entry carries the bare and the full name of the
    i-th enum, its translated description and enumerators, and a section
    title underlined with as many [=] as the bare name is long. *)
Theorem EnumsPage_one_entry_per_enum (lang : string) (l : list Enum)
    (page : EnumsPage) :
  EnumsPage_init lang l = Ok page ->
  length (enums page) = length l /\
  forall (i : nat) (enum : Enum),
    l !! i = Some enum ->
    exists te d,
      enums page !! i = Some te /\
      te_name te =
        Name_translate (Enum_name enum) (nameTranslator (EnumsPage_base page)) false /\
      te_fullName te =
        Name_translate (Enum_name enum) (nameTranslator (EnumsPage_base page)) true /\
      Enum_briefDescription enum = Some d /\
      te_briefDesc te = Description_translate d (docTranslator (EnumsPage_base page)) /\
      _translate_enum_values (EnumsPage_base page) enum = Ok (te_enumerators te) /\
      te_sectionName te =
        te_name te +:+ newline +:+ repeat_str "=" (String.length (te_name te)).
Proof.
  unfold EnumsPage_init, mbind, result_bind.
  destruct (SphinxPage_init _ _) as [base|]; [|discriminate].
  destruct (_translate_enums base l) as [tr|] eqn:E; [|discriminate].
  intros [= <-]. simpl. apply append_each_Ok in E as (ts & F & ->). simpl.
  split; [symmetry; eapply Forall2_length, F|].
  intros i enum Hi.
  destruct (Forall2_lookup_l _ _ _ _ _ F Hi) as (te & Ht & Et).
  unfold translate_enum, mbind, result_bind in Et.
  destruct (Enum_briefDescription enum) as [d|]; [|discriminate]. simpl in Et.
  destruct (_translate_enum_values base enum) as [vs|]; [|discriminate].
  injection Et as <-. eexists. exists d. split; [exact Ht|]. simpl.
  repeat split; reflexivity.
Qed.


(** X5: for a supported language the Enums page is built exactly when
    every enum and every enumerator has a description; otherwise the
    constructor raises [AttributeError]. *)
Theorem EnumsPage_needs_descriptions (lang : string) (l : list Enum) :
  supported lang ->
  ((exists page, EnumsPage_init lang l = Ok page) <->
   (forall enum, In enum l -> Enum_documented enum)) /\
  ((exists page, EnumsPage_init lang l = Ok page) \/
   EnumsPage_init lang l = Raise (AttributeError "translate")).
Proof.
  intros S. unfold EnumsPage_init.
  destruct (SphinxPage_init_supported lang "enums.rst" S) as (nt & lt & ->).
  set (base := {| language := lang; nameTranslator := nt; langTranslator := lt;
                  docTranslator := SphinxTranslator nt; filename := "enums.rst" |}).
  unfold mbind, result_bind.
  pose proof (append_each_Ok_iff (translate_enum base) l) as Hloop.
  fold (_translate_enums base l) in Hloop.
  destruct (_translate_enums base l) as [tr|e] eqn:E.
  - split; [|left; eauto]. split; [|eauto].
    intros _ enum I. apply translate_enum_Ok with (self := base).
    apply Hloop; eauto.
  - split.
    + split; [intros (page & [=])|].
      intros Hall. destruct (proj2 Hloop) as (tr & [=]).
      intros enum I. apply translate_enum_Ok, Hall, I.
    + right. apply _translate_enums_Raise in E. by subst.
Qed.

Lemma _translate_methods_Ok (self : SphinxPage) (ms : list Method)
    (l : list MethAttr) :
  _translate_methods self ms = Ok l <->
  Forall2 (fun m a => translate_method self m = Ok a) ms l.
Proof.
  unfold _translate_methods. rewrite append_each_Ok. split.
  - by intros (ys & F & ->).
  - intros F. by exists l.
Qed.

Lemma ClassPage_init_documented (c : Class_) (lang : string) (page : ClassPage) :
  ClassPage_init c lang = Ok page -> Class_documented c.
Proof.
  unfold ClassPage_init, mbind, result_bind.
  destruct (SphinxPage_init _ _) as [base|]; [|discriminate].
  destruct (_get_translated_namespace base c); [|discriminate].
  destruct (Class_briefDescription c) as [d|] eqn:D; [|discriminate]. simpl.
  destruct (_translate_methods base (Class_instanceMethods c)) as [l1|] eqn:E1;
    [|discriminate].
  destruct (_translate_methods base (Class_classMethods c)) as [l2|] eqn:E2;
    [|discriminate].
  intros _. split; [eauto|]. intros m I.
  apply translate_method_Ok with (self := base).
  apply in_app_iff in I as [I | I];
    [eapply (proj1 (append_each_Ok_iff _ _)); [eexists; exact E1 | exact I]
    |eapply (proj1 (append_each_Ok_iff _ _)); [eexists; exact E2 | exact I]].
Qed.

(** X6: the outcome of building a class page.  An unsupported language
    raises [ValueError]; otherwise a class without Namespace ancestor raises
    [AttributeError] on [name]; otherwise a missing description, of the
    class or of one of its methods, raises [AttributeError] on [translate];
    otherwise the page is built. *)
Theorem ClassPage_init_outcome (c : Class_) (lang : string) :
  (~ supported lang /\ ClassPage_init c lang = Raise (ValueError lang)) \/
  (supported lang /\ find_first_ancestor_by_type c KNamespace = None /\
   ClassPage_init c lang = Raise (AttributeError "name")) \/
  (supported lang /\ is_Some (find_first_ancestor_by_type c KNamespace) /\
   ~ Class_documented c /\
   ClassPage_init c lang = Raise (AttributeError "translate")) \/
  (supported lang /\ is_Some (find_first_ancestor_by_type c KNamespace) /\
   Class_documented c /\ exists page, ClassPage_init c lang = Ok page).
Proof.
  destruct (supported_dec lang) as [S | N];
    [|left; split; [exact N | by apply ClassPage_init_other]].
  right. destruct (find_first_ancestor_by_type c KNamespace) as [ns|] eqn:F.
  - right. destruct (ClassPage_init c lang) as [page|e] eqn:E.
    + right. split; [exact S|]. split; [eauto|].
      split; [eapply ClassPage_init_documented, E | eauto].
    + left. split; [exact S|]. split; [eauto|].
      assert (~ Class_documented c) as ND.
      { intros [D M]. destruct (ClassPage_init_total c lang S) as (page & E');
          [rewrite F; eauto | exact D | exact M | congruence]. }
      split; [exact ND|].
      destruct (ClassPage_init_Raise _ _ _ S E) as [-> | ->]; [|reflexivity].
      exfalso. revert E. unfold ClassPage_init.
      destruct (SphinxPage_init_supported lang
                  (_classname_to_filename (Class_name c)) S) as (nt & lt & ->).
      unfold mbind, result_bind, _get_translated_namespace. rewrite F.
      destruct (translate_brief _ _) eqn:E2;
        [|apply translate_brief_Raise in E2; subst; discriminate].
      destruct (_translate_methods _ (Class_instanceMethods c)) eqn:E3;
        [|apply _translate_methods_Raise in E3; subst; discriminate].
      destruct (_translate_methods _ (Class_classMethods c)) eqn:E4;
        [|apply _translate_methods_Raise in E4; subst; discriminate].
      discriminate.
  - left. split; [exact S|]. split; [reflexivity|].
    unfold ClassPage_init.
    destruct (SphinxPage_init_supported lang
                (_classname_to_filename (Class_name c)) S) as (nt & lt & ->).
    unfold mbind, result_bind, _get_translated_namespace. by rewrite F.
Qed.

Lemma ClassPage_init_names (c : Class_) (lang : string) (page : ClassPage) :
  ClassPage_init c lang = Ok page ->
  className page =
    Name_translate (Class_name c) (nameTranslator (ClassPage_base page)) false /\
  fullClassName page =
    Name_translate (Class_name c) (nameTranslator (ClassPage_base page)) true.
Proof.
  unfold ClassPage_init, mbind, result_bind.
  destruct (SphinxPage_init _ _); [|discriminate].
  destruct (_get_translated_namespace _ c); [|discriminate].
  destruct (translate_brief _ _); [|discriminate].
  destruct (_translate_methods _ (Class_instanceMethods c)); [|discriminate].
  destruct (_translate_methods _ (Class_classMethods c)); [|discriminate].
  intros [= <-]. split; reflexivity.
Qed.

(** X7: a class page lists the instance methods of the class under
    [methods] and its class methods under [classMethods], one entry per
    method and in the order of the class, each with the prototype and the
    description of that method in the language of the page; the two names
    of the class are the bare and the full translation of its name. *)
Theorem ClassPage_methods_in_order (c : Class_) (lang : string)
    (page : ClassPage) :
  ClassPage_init c lang = Ok page ->
  let base := ClassPage_base page in
  let entry_of (m : Method) (a : MethAttr) :=
    prototype a = translate_as_prototype m (langTranslator base) /\
    exists d, Method_briefDescription m = Some d /\
              brief a = Description_translate d (docTranslator base) in
  language base = lang /\
  className page = Name_translate (Class_name c) (nameTranslator base) false /\
  fullClassName page = Name_translate (Class_name c) (nameTranslator base) true /\
  Forall2 entry_of (Class_instanceMethods c) (methods page) /\
  Forall2 entry_of (Class_classMethods c) (classMethods page).
Proof.
  intros I base entry_of.
  assert (forall ms l, _translate_methods base ms = Ok l -> Forall2 entry_of ms l)
    as Hl.
  { intros ms l E. apply _translate_methods_Ok in E.
    eapply Forall2_impl; [exact E|]. intros m a Ea.
    unfold translate_method, mbind, result_bind in Ea. unfold entry_of.
    destruct (Method_briefDescription m) as [d|]; [|discriminate].
    simpl in Ea. injection Ea as <-. split; [reflexivity|].
    exists d. split; reflexivity. }
  pose proof I as I'.
  apply ClassPage_init_Ok in I' as (b & ns & B & Eb & _ & _ & M1 & M2).
  fold base in Eb. subst b.
  apply SphinxPage_init_Ok in B as (_ & L & _).
  split; [exact L|].
  destruct (ClassPage_init_names _ _ _ I) as [E1 E2].
  split; [exact E1|]. split; [exact E2|]. split; by apply Hl.
Qed.

(** X8: on a class page, [hasMethods] is [True] exactly when the class has
    an instance method, and [hasClassMethods] is the number of class methods
    of the class, truthy exactly when there is one. *)
Theorem ClassPage_flags_follow_the_class (c : Class_) (lang : string)
    (page : ClassPage) :
  ClassPage_init c lang = Ok page ->
  (hasMethods page = VBool true <-> Class_instanceMethods c <> []) /\
  (hasClassMethods page = VInt (Z.of_nat (length (Class_classMethods c)))) /\
  (truthy (hasClassMethods page) = true <-> Class_classMethods c <> []).
Proof.
  intros I. apply ClassPage_init_Ok in I as (b & ns & _ & _ & _ & _ & M1 & M2).
  apply _translate_methods_Ok, Forall2_length in M1, M2.
  unfold hasMethods, hasClassMethods, _has_methods, _has_class_methods.
  rewrite <- M1, <- M2. simpl.
  destruct (Class_instanceMethods c), (Class_classMethods c); simpl;
    repeat split; try done; try (intros _; done); try (intros [=]).
Qed.

(** X9: adding classes to a fresh Index page, one after the other, gives
    one entry per class, in the order of the additions and with repeated
    classes kept; the file name of the page stays [index.rst]. *)
Theorem IndexPage_collects_entries (lang : string) (indexPage : IndexPage)
    (classes : list Class_) :
  IndexPage_init lang = Ok indexPage ->
  let filled := foldl add_class_entry indexPage classes in
  tocEntries filled =
    List.map (fun c => {| entryName := _classname_to_filename (Class_name c) |})
      classes /\
  length (tocEntries filled) = length classes /\
  filename (IndexPage_base filled) = "index.rst".
Proof.
  intros I filled. apply IndexPage_init_Ok in I as (_ & Fn & T).
  destruct (add_class_entries indexPage classes) as [Eb Et].
  fold filled in Eb, Et. rewrite Et, T, Eb. simpl.
  split; [reflexivity|]. split; [apply length_map | exact Fn].
Qed.

(** X10: two languages get the same subdirectory exactly when they are the
    same up to case, and different subdirectories are different
    directories under every output directory. *)
Theorem _get_subdirectory_separates (self : DocGenerator) (s1 s2 d1 d2 : string) :
  _get_subdirectory self s1 = Ok d1 ->
  _get_subdirectory self s2 = Ok d2 ->
  (d1 = d2 <-> lower s1 = lower s2) /\
  (forall out, d1 <> d2 -> os_path_join out d1 <> os_path_join out d2).
Proof.
  unfold _get_subdirectory.
  destruct (String.eqb_spec (lower s1) "c") as [E1|N1];
    [|destruct (String.eqb_spec (lower s1) "c++") as [E1'|N1']; [|discriminate]];
    (destruct (String.eqb_spec (lower s2) "c") as [E2|N2];
      [|destruct (String.eqb_spec (lower s2) "c++") as [E2'|N2']; [|discriminate]]);
    intros [= <-] [= <-]; (split; [split; congruence|]);
    intros out N; try congruence;
    unfold os_path_join; simpl;
    destruct (String.eqb out "" || ends_with_slash out);
    intros E; apply append_inj_r in E; discriminate.
Qed.

End MorePageFacts.

(** ** Runs *)

Section MoreRunFacts.
Context `{pystache}.







Lemma last_put_last (acts : list action) (p c : string) :
  last_put (acts ++ [Put p c]) p = Some c.
Proof.
  induction acts as [|[d | q c0] rest IH]; simpl.
  - by rewrite String.eqb_refl.
  - exact IH.
  - by rewrite IH.
Qed.

(** X11: run without the global [args], [generate] raises [NameError]
    before it touches the file system.  Run with [args] but without
    [absApiParser], it first sees to the directory of the first language:
    when that path exists nothing changes, when it can be created it is
    created, and in both cases [NameError] follows; when it cannot be
    created, [os.mkdir] raises [OSError] and nothing has changed. *)
Theorem generate_without_globals (api : CParser) (outputdir0 : string)
    (G : Globals) (w : World) :
  (args G = None ->
   generate (DocGenerator_init api) outputdir0 G w = (Raise (NameError "args"), w)) /\
  (forall a, args G = Some a -> absApiParser G = None ->
     let directory := os_path_join (outputdir a) "c" in
     generate (DocGenerator_init api) outputdir0 G w =
       match nodes w !! directory with
       | Some _ => (Raise (NameError "absApiParser"), w)
       | None =>
           if is_directory (nodes w) (os_path_dirname directory)
              && negb (denied w (EvMkdir directory))
           then (Raise (NameError "absApiParser"),
                 after_effect w (<[directory := Dir]> (nodes w))
                   (EvMkdir directory))
           else (Raise (OSError directory), w)
       end).
Proof.
  split.
  - intros Ea. rewrite generate_run. unfold plan. simpl.
    unfold plan_language. simpl. by rewrite Ea.
  - intros a Ea Ep directory. rewrite generate_run. unfold plan. simpl.
    unfold plan_language. simpl. rewrite Ea, Ep. cbn [fst snd].
    fold directory. rewrite run_cons.
    unfold perform, mbind, IO_bind, os_path_exists, os_mkdir, allowed.
    destruct (nodes w !! directory) as [n|] eqn:Ed.
    + rewrite bool_decide_eq_true_2 by eauto. reflexivity.
    + rewrite bool_decide_eq_false_2 by (intros [? ?]; discriminate).
      simpl. rewrite Ed.
      by destruct (is_directory (nodes w) (os_path_dirname directory)
                   && negb (denied w (EvMkdir directory))).
Qed.



(** X14: whatever its outcome, a run removes nothing: a path that exists
    still exists afterwards, and a directory is still a directory. *)
Theorem generate_removes_nothing (self : DocGenerator) (outputdir0 : string)
    (G : Globals) (w : World) (k : string) :
  (is_Some (nodes w !! k) ->
   is_Some (nodes (generate self outputdir0 G w).2 !! k)) /\
  (nodes w !! k = Some Dir ->
   nodes (generate self outputdir0 G w).2 !! k = Some Dir).
Proof.
  rewrite generate_run.
  rewrite (surjective_pairing (plan self G)), run_world.
  apply exec_keeps.
Qed.



(** Paths of the run: a language directory is not empty and does not end
    with a slash, and a file name without slash, joined onto it, has it as
    its directory name. *)
Lemma ends_with_slash_append (x s : string) :
  s <> "" -> ends_with_slash (x +:+ s) = ends_with_slash s.
Proof.
  intros Ns. induction x as [|c x IH]; [reflexivity|].
  change (String c x +:+ s) with (String c (x +:+ s)).
  destruct (x +:+ s) as [|c' r] eqn:E.
  - exfalso. destruct x; simpl in E; [contradiction | discriminate].
  - rewrite <- IH. reflexivity.
Qed.

Lemma rstrip_slashes_id (d : string) :
  ends_with_slash d = false -> rstrip_slashes d = d.
Proof.
  induction d as [|c d IH]; [reflexivity|].
  destruct d as [|c' d'].
  - simpl. intros ->. reflexivity.
  - intros E. change (ends_with_slash (String c' d') = false) in E.
    cbn [rstrip_slashes]. cbn [rstrip_slashes] in IH. rewrite (IH E).
    reflexivity.
Qed.

Lemma rstrip_slashes_slash (d : string) :
  rstrip_slashes (d +:+ "/") = rstrip_slashes d.
Proof.
  induction d as [|c d IH]; [reflexivity|].
  change (String c d +:+ "/") with (String c (d +:+ "/")).
  cbn [rstrip_slashes]. by rewrite IH.
Qed.

Lemma head_of_join (d name : string) :
  head_of name = "" -> head_of (d +:+ "/" +:+ name) = d +:+ "/".
Proof.
  intros Hn. induction d as [|c d IH].
  - change (head_of (String "/" name) = "/"). cbn [head_of]. by rewrite Hn.
  - change (String c d +:+ "/" +:+ name) with (String c (d +:+ "/" +:+ name)).
    change (String c d +:+ "/") with (String c (d +:+ "/")).
    cbn [head_of]. rewrite IH.
    destruct (d +:+ "/") eqn:E; [|reflexivity].
    destruct d; discriminate.
Qed.

Lemma os_path_dirname_join (d name : string) :
  d <> "" -> ends_with_slash d = false -> head_of name = "" ->
  os_path_join d name = d +:+ "/" +:+ name /\
  os_path_dirname (os_path_join d name) = d.
Proof.
  intros Nd Ed Hn.
  assert (os_path_join d name = d +:+ "/" +:+ name) as ->.
  { unfold os_path_join. rewrite Ed.
    assert (starts_with_slash name = false) as ->.
    { destruct name as [|c n]; [reflexivity|]. simpl in *.
      destruct (head_of n); destruct (Ascii.eqb c "/"); congruence. }
    destruct (String.eqb_spec d ""); [contradiction | reflexivity]. }
  split; [reflexivity|].
  unfold os_path_dirname. rewrite (head_of_join _ _ Hn), rstrip_slashes_slash.
  rewrite (rstrip_slashes_id _ Ed). destruct d; [contradiction | reflexivity].
Qed.

Lemma language_directory_shape (out sub : string) :
  sub = "c" \/ sub = "cpp" ->
  os_path_join out sub <> "" /\ ends_with_slash (os_path_join out sub) = false.
Proof.
  intros Hs.
  assert (forall pre, pre +:+ sub <> "" /\ ends_with_slash (pre +:+ sub) = false) as Hpre.
  { intros pre. split.
    - destruct pre; destruct Hs as [-> | ->]; discriminate.
    - rewrite ends_with_slash_append; destruct Hs as [-> | ->];
        reflexivity || discriminate. }
  unfold os_path_join.
  assert (starts_with_slash sub = false) as -> by (destruct Hs as [-> | ->]; reflexivity).
  destruct (String.eqb out "" || ends_with_slash out); [apply Hpre|].
  change (out +:+ "/" +:+ sub) with (out +:+ ("/" +:+ sub)).
  split.
  - destruct out; discriminate.
  - rewrite ends_with_slash_append by discriminate.
    destruct Hs as [-> | ->]; reflexivity.
Qed.

(** X17: after a successful turn for a language its directory is a
    directory, the Index page holds the rendered index with one entry per
    class, and the Enums page and the page of every class exist as files. *)
Theorem generated_files_exist (self : DocGenerator) (G : Globals)
    (lang : string) (w w' : World) :
  generate_language self G lang w = (Ok tt, w') ->
  exists a parser sub indexPage,
    args G = Some a /\ absApiParser G = Some parser /\
    _get_subdirectory self lang = Ok sub /\
    let directory := os_path_join (outputdir a) sub in
    nodes w' !! directory = Some Dir /\
    tocEntries indexPage =
      List.map (fun c => {| entryName := _classname_to_filename (Class_name c) |})
        (values (classesIndex parser)) /\
    nodes w' !! os_path_join directory "index.rst" =
      Some (File (render (PIndex indexPage))) /\
    (exists content,
       nodes w' !! os_path_join directory "enums.rst" = Some (File content)) /\
    (forall c, In c (values (classesIndex parser)) ->
       exists content,
         nodes w' !! os_path_join directory (_classname_to_filename (Class_name c)) =
           Some (File content)).
Proof.
  rewrite generate_language_run.
  destruct (plan_language self G lang) as [acts r] eqn:P.
  intros R. apply run_Ok in R as [E ->].
  destruct (plan_language_Ok _ _ _ _ P)
    as (a & parser & sub & enumsPage & classPages & indexPage &
        Ea & Ep & Es & Ee & F & Fi & Ft & Hacts).
  cbv zeta in Hacts. set (directory := os_path_join (outputdir a) sub) in *.
  exists a, parser, sub, indexPage.
  split; [exact Ea|]. split; [exact Ep|]. split; [exact Es|].
  cbv zeta. fold directory. split; [|split; [exact Ft|split; [|split]]].
  - pose proof Es as Es'. apply _get_subdirectory_Ok in Es' as [_ Hsub].
    destruct (language_directory_shape (outputdir a) sub Hsub) as [Nd Ed].
    fold directory in Nd, Ed.
    destruct (os_path_dirname_join directory "enums.rst" Nd Ed eq_refl)
      as [_ Hdir].
    rewrite Hacts in E. rewrite exec_cons in E.
    destruct (perform (Ensure directory) w) as [[[]|e1] w1]; [|discriminate].
    rewrite exec_cons in E.
    destruct (perform (put_page directory (PEnums enumsPage)) w1)
      as [[[]|e2] w2] eqn:P2; [|discriminate].
    pose proof (perform_step (put_page directory (PEnums enumsPage)) w1)
      as (_ & _ & K & _). rewrite P2 in K. cbn [snd] in K.
    apply perform_Ok in P2 as (_ & Al & _).
    apply EnumsPage_init_Ok in Ee as [_ Fn]. simpl in Al. rewrite Fn in Al.
    unfold allowed in Al. apply andb_true_iff in Al as [Al _].
    rewrite Hdir in Al. unfold is_directory in Al.
    rewrite (rstrip_slashes_id _ Ed) in Al.
    destruct directory as [|c0 d0] eqn:Edir; [contradiction|].
    destruct (nodes w1 !! String c0 d0) as [[|?]|] eqn:E1; try discriminate.
    pose proof (exec_keeps
                  (List.map (fun p => put_page (String c0 d0) (PClass p)) classPages ++
                   [put_page (String c0 d0) (PIndex indexPage)]) w2 (String c0 d0))
      as [_ K2].
    rewrite E in K2. apply K2, K, E1.
  - rewrite (exec_Ok_lookup _ _ _ _ E), Hacts.
    change (Ensure directory :: put_page directory (PEnums enumsPage)
              :: List.map (fun p => put_page directory (PClass p)) classPages ++
                 [put_page directory (PIndex indexPage)])
      with ((Ensure directory :: put_page directory (PEnums enumsPage)
              :: List.map (fun p => put_page directory (PClass p)) classPages) ++
                 [put_page directory (PIndex indexPage)]).
    unfold put_page at 3. simpl Page_base. rewrite Fi.
    by rewrite last_put_last.
  - assert (In (put_page directory (PEnums enumsPage)) acts) as I.
    { rewrite Hacts. right. by left. }
    unfold put_page in I. simpl in I.
    apply EnumsPage_init_Ok in Ee as [_ Efn]. rewrite Efn in I.
    destruct (last_put_In _ _ _ I) as (content & L).
    exists content. by rewrite (exec_Ok_lookup _ _ _ _ E), L.
  - intros c Ic.
    apply list_elem_of_In, list_elem_of_lookup in Ic as (i & Hi).
    destruct (Forall2_lookup_l _ _ _ _ _ F Hi) as (page & Hp & Epage).
    assert (In (put_page directory (PClass page)) acts) as I.
    { rewrite Hacts. right. right. apply in_app_iff. left.
      apply in_map_iff. exists page. split; [reflexivity|].
      apply list_elem_of_In, list_elem_of_lookup. eauto. }
    unfold put_page in I. simpl in I.
    apply ClassPage_init_Ok in Epage as (base & _ & B & <- & _).
    apply SphinxPage_init_Ok in B as (_ & _ & Efn). rewrite Efn in I.
    destruct (last_put_In _ _ _ I) as (content & L).
    exists content. by rewrite (exec_Ok_lookup _ _ _ _ E), L.
Qed.




End MoreRunFacts.

(** * The properties on the sample API *)

Import Sample.

(** The whole run on the sample project, into an output directory that
    exists and is empty. *)
Example sample_run_events :
  journal (generate (DocGenerator_init other) "ignored"
             script_globals out_world).2 =
  [ EvMkdir "out/c";
    EvWrite "out/c/enums.rst" ("colour" +:+ newline +:+ "======");
    EvWrite "out/c/foo_bar_baz.rst"
      ("foo_bar_baz" +:+ newline +:+ "void foo_bar_baz_do_thing();");
    EvWrite "out/c/foo_factory.rst"
      ("foo_factory" +:+ newline +:+ "BarBaz foo_bar_baz_create();"
         +:+ newline +:+ "BarBaz foo_bar_baz_create();");
    EvWrite "out/c/index.rst" ("foo_bar_baz.rst" +:+ newline +:+ "foo_factory.rst");
    EvMkdir "out/cpp";
    EvWrite "out/cpp/enums.rst" ("Colour" +:+ newline +:+ "======");
    EvWrite "out/cpp/foo_bar_baz.rst"
      ("Foo::BarBaz" +:+ newline +:+ "void Foo::BarBaz::doThing();");
    EvWrite "out/cpp/foo_factory.rst"
      ("Foo::Factory" +:+ newline +:+ "BarBaz Foo::BarBaz::create();"
         +:+ newline +:+ "BarBaz Foo::BarBaz::create();");
    EvWrite "out/cpp/index.rst" ("foo_bar_baz.rst" +:+ newline +:+ "foo_factory.rst") ].
Proof. reflexivity. Qed.

(** C1: on the class [Factory], which has no instance method and two class
    methods, [hasMethods] is the boolean [False] but [hasClassMethods] is the
    integer 2, which is no boolean and equals neither [True] nor [False]; on
    [BarBaz], which has no class method, it is the integer 0.
    [_has_class_methods] returns the length itself where [_has_methods]
    compares the length with zero. *)
Theorem hasClassMethods_is_not_a_boolean :
  exists factory barbaz,
    ClassPage_init Factory "C" = Ok factory /\
    ClassPage_init BarBaz "C" = Ok barbaz /\
    hasMethods factory = VBool false /\
    hasClassMethods factory = VInt 2 /\
    is_bool (hasClassMethods factory) = false /\
    py_eqb (hasClassMethods factory) (VBool true) = false /\
    py_eqb (hasClassMethods factory) (VBool false) = false /\
    hasMethods barbaz = VBool true /\
    hasClassMethods barbaz = VInt 0 /\
    is_bool (hasClassMethods barbaz) = false.
Proof.
  do 2 eexists. split; [reflexivity|]. split; [reflexivity|].
  repeat split; reflexivity.
Qed.

Lemma index_entry_names_the_class_page_witness :
  exists page,
    ClassPage_init BarBaz "C++" = Ok page /\
    tocEntries (add_class_entry {| IndexPage_base := page_C; tocEntries := [] |}
                  BarBaz) =
      [] ++ [{| entryName := filename (ClassPage_base page) |}] /\
    filename (ClassPage_base page) = _classname_to_filename (Class_name BarBaz).
Proof.
  eexists. split; [reflexivity|].
  apply (index_entry_names_the_class_page BarBaz "C++"). reflexivity.
Defined.

Lemma unsupported_language_raises_witness :
  lower "Java" <> "c" /\ lower "Java" <> "c++" /\
  ClassPage_init Orphan "Java" = Raise (ValueError "Java") /\
  generate_language (DocGenerator_init parsed) script_globals "Java" out_world =
    (Raise (ValueError "'Java' language not supported"), out_world).
Proof.
  assert (lower "Java" <> "c") as N1 by (vm_compute; discriminate).
  assert (lower "Java" <> "c++") as N2 by (vm_compute; discriminate).
  destruct (unsupported_language_raises "Java" N1 N2)
    as (_ & _ & _ & Hc & _ & Hg).
  split; [exact N1|]. split; [exact N2|]. split; [apply Hc | apply Hg].
Defined.

Lemma enumerators_keep_declaration_order_witness :
  exists l,
    _translate_enum_values page_C Colour = Ok l /\
    List.map tv_name l = ["c"; "a"; "b"] /\
    length l = length (Enum_enumerators Colour) /\
    forall (i : nat) (e : Enumerator),
      Enum_enumerators Colour !! i = Some e ->
      exists t, l !! i = Some t /\
        translate_enumerator page_C e = Ok t /\
        tv_name t = Name_translate (Enumerator_name e) (nameTranslator page_C) false /\
        tv_value t = translate_value e (langTranslator page_C).
Proof.
  eexists. split; [reflexivity|]. split; [reflexivity|].
  apply (enumerators_keep_declaration_order page_C Colour). reflexivity.
Defined.


Lemma generation_order_witness :
  generate_language (DocGenerator_init other) script_globals "C" out_world =
    (Ok tt, world_after_C) /\
  exists a parser sub enumsPage classPages indexPage mk,
    args script_globals = Some a /\ absApiParser script_globals = Some parser /\
    _get_subdirectory (DocGenerator_init other) "C" = Ok sub /\
    EnumsPage_init "C" (values (enumsIndex parser)) = Ok enumsPage /\
    Forall2 (fun c p => ClassPage_init c "C" = Ok p)
      (values (classesIndex parser)) classPages /\
    filename (IndexPage_base indexPage) = "index.rst" /\
    tocEntries indexPage =
      List.map (fun c => {| entryName := _classname_to_filename (Class_name c) |})
        (values (classesIndex parser)) /\
    let directory := os_path_join (outputdir a) sub in
    (mk = [] \/ mk = [EvMkdir directory]) /\
    journal world_after_C = journal out_world ++ mk ++
      [written directory (PEnums enumsPage)] ++
      List.map (fun p => written directory (PClass p)) classPages ++
      [written directory (PIndex indexPage)].
Proof.
  split; [reflexivity|].
  apply (generation_order (DocGenerator_init other) script_globals "C" out_world).
  reflexivity.
Defined.

Lemma generate_reads_the_module_globals_witness :
  generate (DocGenerator_init other) "elsewhere" script_globals out_world =
    (Ok tt, world_after_run) /\
  exists evsC evsCpp j,
    turn_writes (DocGenerator_init other) script_globals "C" evsC /\
    turn_writes (DocGenerator_init other) script_globals "C++" evsCpp /\
    journal world_after_run = journal out_world ++ j /\
    List.filter is_write j = evsC ++ evsCpp.
Proof.
  split; [reflexivity|].
  apply (proj2 (proj2 (generate_reads_the_module_globals other parsed
                         "elsewhere" "first" script_globals out_world))).
  reflexivity.
Defined.


(** A class directly under the root: the constructor raises
    [AttributeError] for both languages and [ValueError] for Java. *)
Example orphan_class_page :
  ClassPage_init Orphan "C" = Raise (AttributeError "name") /\
  ClassPage_init Orphan "c++" = Raise (AttributeError "name") /\
  ClassPage_init Orphan "Java" = Raise (ValueError "Java") /\
  find_first_ancestor_by_type Orphan KNamespace = None.
Proof. repeat split; reflexivity. Qed.

(** * The further properties on the sample API *)

Import Fixtures.

(** Writing onto a directory fails and changes nothing. *)
Example write_onto_directory :
  write empty_index "out/c" blocked_world =
    (Raise (IOError "out/c/index.rst"), blocked_world).
Proof. reflexivity. Qed.

(** A class with an undocumented method gets no page. *)
Example draft_class_page :
  ClassPage_init Draft "C" = Raise (AttributeError "translate").
Proof. reflexivity. Qed.

Lemma EnumsPage_one_entry_per_enum_witness :
  exists page,
    EnumsPage_init "C" [Colour] = Ok page /\
    List.map te_name (enums page) = ["colour"] /\
    length (enums page) = length [Colour].
Proof.
  eexists. split; [reflexivity|]. split; [reflexivity|].
  apply (EnumsPage_one_entry_per_enum "C" [Colour]). reflexivity.
Defined.

Lemma EnumsPage_needs_descriptions_witness :
  supported "C++" /\
  EnumsPage_init "C++" [Colour; Shade] = Raise (AttributeError "translate") /\
  ((exists page, EnumsPage_init "C++" [Colour; Shade] = Ok page) <->
   (forall enum, In enum [Colour; Shade] -> Enum_documented enum)).
Proof.
  assert (supported "C++") as S by (right; reflexivity).
  split; [exact S|]. split; [reflexivity|].
  apply (EnumsPage_needs_descriptions "C++" [Colour; Shade] S).
Defined.

Lemma ClassPage_methods_in_order_witness :
  exists page,
    ClassPage_init Factory "C++" = Ok page /\
    List.map prototype (classMethods page) =
      ["BarBaz Foo::BarBaz::create();"; "BarBaz Foo::BarBaz::create();"] /\
    language (ClassPage_base page) = "C++".
Proof.
  eexists. split; [reflexivity|]. split; [reflexivity|].
  apply (ClassPage_methods_in_order Factory "C++"). reflexivity.
Defined.

Lemma ClassPage_flags_follow_the_class_witness :
  exists page,
    ClassPage_init Factory "C" = Ok page /\
    (hasMethods page = VBool true <-> Class_instanceMethods Factory <> []) /\
    hasClassMethods page = VInt (Z.of_nat (length (Class_classMethods Factory))) /\
    (truthy (hasClassMethods page) = true <-> Class_classMethods Factory <> []).
Proof.
  eexists. split; [reflexivity|].
  apply (ClassPage_flags_follow_the_class Factory "C"). reflexivity.
Defined.

Lemma IndexPage_collects_entries_witness :
  exists indexPage,
    IndexPage_init "c" = Ok indexPage /\
    tocEntries (foldl add_class_entry indexPage [BarBaz; Factory; BarBaz]) =
      [{| entryName := "foo_bar_baz.rst" |}; {| entryName := "foo_factory.rst" |};
       {| entryName := "foo_bar_baz.rst" |}].
Proof.
  eexists. split; [reflexivity|].
  apply (IndexPage_collects_entries "c" _ [BarBaz; Factory; BarBaz]). reflexivity.
Defined.

Lemma _get_subdirectory_separates_witness :
  ("c" = "cpp" <-> lower "C" = lower "c++") /\
  (forall out, "c" <> "cpp" -> os_path_join out "c" <> os_path_join out "cpp").
Proof.
  apply (_get_subdirectory_separates (DocGenerator_init parsed) "C" "c++");
    reflexivity.
Defined.


Lemma generate_without_globals_witness :
  generate (DocGenerator_init parsed) "out" no_parser out_world =
    (Raise (NameError "absApiParser"),
     after_effect out_world (<[ "out/c" := Dir ]> (nodes out_world))
       (EvMkdir "out/c")).
Proof.
  apply (proj2 (generate_without_globals parsed "out" no_parser out_world)
           {| xmldir := "xml"; outputdir := "out" |} eq_refl eq_refl).
Defined.





Lemma generated_files_exist_witness :
  generate_language (DocGenerator_init other) script_globals "C" out_world =
    (Ok tt, world_after_C) /\
  exists a parser sub indexPage,
    args script_globals = Some a /\ absApiParser script_globals = Some parser /\
    _get_subdirectory (DocGenerator_init other) "C" = Ok sub /\
    let directory := os_path_join (outputdir a) sub in
    nodes world_after_C !! directory = Some Dir /\
    tocEntries indexPage =
      List.map (fun c => {| entryName := _classname_to_filename (Class_name c) |})
        (values (classesIndex parser)) /\
    nodes world_after_C !! os_path_join directory "index.rst" =
      Some (File (render (PIndex indexPage))) /\
    (exists content,
       nodes world_after_C !! os_path_join directory "enums.rst" =
         Some (File content)) /\
    (forall c, In c (values (classesIndex parser)) ->
       exists content,
         nodes world_after_C !!
           os_path_join directory (_classname_to_filename (Class_name c)) =
           Some (File content)).
Proof.
  split; [reflexivity|].
  apply (generated_files_exist (DocGenerator_init other) script_globals "C"
           out_world world_after_C).
  reflexivity.
Defined.


(** The write of a page into a directory that does not exist fails, as
    [open] does, and changes nothing. *)
Example write_without_directory :
  write empty_index "out/c" out_world =
    (Raise (IOError "out/c/index.rst"), out_world).
Proof. reflexivity. Qed.

(** Without the output directory the run stops at the first [os.mkdir]. *)
Example run_without_output_directory :
  generate (DocGenerator_init parsed) "out" script_globals empty_world =
    (Raise (OSError "out/c"), empty_world).
Proof. reflexivity. Qed.

(** A directory where the Index page goes stops the C turn at its last
    write; the pages written before stay. *)
Example run_onto_blocked_index :
  generate (DocGenerator_init parsed) "out" script_globals blocked_world =
    (Raise (IOError "out/c/index.rst"), world_after_blocked) /\
  journal world_after_blocked =
    [ EvWrite "out/c/enums.rst" ("colour" +:+ newline +:+ "======");
      EvWrite "out/c/foo_bar_baz.rst"
        ("foo_bar_baz" +:+ newline +:+ "void foo_bar_baz_do_thing();");
      EvWrite "out/c/foo_factory.rst"
        ("foo_factory" +:+ newline +:+ "BarBaz foo_bar_baz_create();"
           +:+ newline +:+ "BarBaz foo_bar_baz_create();") ].
Proof. split; reflexivity. Qed.

(** Without the parser the C directory is made and nothing is written. *)
Example run_without_parser :
  journal (generate (DocGenerator_init parsed) "out" no_parser out_world).2 =
    [EvMkdir "out/c"] /\
  (generate (DocGenerator_init parsed) "out" no_parser out_world).1 =
    Raise (NameError "absApiParser").
Proof. split; reflexivity. Qed.
